(** * Serializers of the Document Registratie Component REST API

    A shallow embedding of [src/drc/api/serializers.py] and the properties
    of its lock protocol, usage-rights indicator, nested writes and
    relation immutability.

    Python dictionaries ([attrs], [validated_data], the JSON answer of the
    catalogue) are finite maps from strings to values; a model instance is its
    attribute dictionary plus the rows of its reverse relation
    [gebruiksrechten_set]; a raised exception is the [Raise] branch of
    [result]. *)

From Stdlib Require Import ZArith Lia Ascii String.
From stdpp Require Import gmap strings list fin_maps.

Open Scope string_scope.

(** ** Python values *)

(** The values that travel through the serializers: [None], booleans, strings
    and the flat dictionaries of a [GegevensGroepSerializer]. *)
Inductive value :=
| VNone
| VBool (b : bool)
| VStr (s : string)
| VGroup (g : list (string * string)).

#[global] Instance value_eq_dec : EqDecision value.
Proof. solve_decision. Defined.

(** Python truthiness, [bool(v)]. *)
Definition truthy (v : value) : bool :=
  match v with
  | VNone => false
  | VBool b => b
  | VStr s => negb (bool_decide (s = ""))
  | VGroup g => negb (bool_decide (g = []))
  end.

(** Python [a != b] on values. *)
Definition ne (a b : value) : bool := negb (bool_decide (a = b)).

(** ** Exceptions *)

Inductive exn :=
| ValidationError (code : string)
| FieldErrors (errors : list (string * list string))
| KeyError (key : string)
| AttributeError (name : string)
| ClientError (url : value).

Inductive result (A : Type) :=
| Ok (a : A)
| Raise (e : exn).
Arguments Ok {A} a.
Arguments Raise {A} e.

Definition bind {A B} (r : result A) (k : A -> result B) : result B :=
  match r with
  | Ok a => k a
  | Raise e => Raise e
  end.

Notation "x <- r ;; k" := (bind r (fun x => k))
  (at level 100, r at next level, right associativity).

(** The error names of the specification, as the codes the serializers raise. *)
Definition Unlocked : exn := ValidationError "unlocked".
Definition LockMismatch : exn := ValidationError "incorrect-lock-id".
Definition LockedAtCreate : exn := ValidationError "lock-in-create".
Definition AlreadyLocked : exn := ValidationError "existing-lock".
Definition UsageRightsConflict : exn := ValidationError "existing-gebruiksrechten".
Definition MissingUsageRights : exn := ValidationError "missing-gebruiksrechten".
(** [IsImmutableValidator.code] *)
Definition ImmutableFieldModified : string := "wijzigen-niet-toegelaten".

(** ** Model instances *)

Record Gebruiksrechten := {
  startdatum : string;
  einddatum : value;
  omschrijving_voorwaarden : string
}.

(** An instance of a Django model: its attribute dictionary and its reverse
    relations. The nested groups [integriteit] and [ondertekening] are
    attributes like the others: assigning a dictionary fills the group,
    assigning [None] empties it. *)
Record Model (R : Type) := {
  attributes : gmap string value;
  related : R
}.
Arguments attributes {R} _.
Arguments related {R} _.

(** The reverse relation of an [EnkelvoudigInformatieObject] is the list of
    [Gebruiksrechten] rows that point at it; an [ObjectInformatieObject] has
    none. *)
Abbreviation EnkelvoudigInformatieObject := (Model (list Gebruiksrechten)).
Abbreviation ObjectInformatieObject := (Model unit).

Definition gebruiksrechten_set (instance : EnkelvoudigInformatieObject)
  : list Gebruiksrechten := related instance.

(** [instance.name]; a column that was never written reads as [None]. *)
Definition getattr {R} (instance : Model R) (name : string) : value :=
  default VNone (attributes instance !! name).

(** [instance.name = v] *)
Definition setattr {R} (instance : Model R) (name : string) (v : value)
  : Model R :=
  {| attributes := <[name := v]> (attributes instance);
     related := related instance |}.

(** [queryset.exists()] *)
Definition exists_ (rows : list Gebruiksrechten) : bool :=
  match rows with
  | [] => false
  | _ :: _ => true
  end.

(** [d.get(key, dflt)] *)
Definition get (d : gmap string value) (key : string) (dflt : value) : value :=
  default dflt (d !! key).

(** [d.pop(key, dflt)]: the value and the dictionary without the key. *)
Definition pop (d : gmap string value) (key : string) (dflt : value)
  : value * gmap string value :=
  (default dflt (d !! key), delete key d).

(** [d[key]] *)
Definition getitem (d : gmap string value) (key : string) : result value :=
  match d !! key with
  | Some v => Ok v
  | None => Raise (KeyError key)
  end.

(** ** uuid *)

Module uuid.

(** [int.from_bytes(bytes, 'big')] *)
Definition int_from_bytes (bytes : list Byte.byte) : Z :=
  fold_left (fun acc b => acc * 256 + Z.of_N (Byte.to_N b))%Z bytes 0%Z.

(** [UUID(bytes=..., version=...)]: the integer of the UUID, with the
    variant and version bits set. *)
Definition UUID (bytes : list Byte.byte) (version : Z) : Z :=
  let int := int_from_bytes bytes in
  let int := Z.land int (Z.lnot (Z.shiftl 0xc000 48)) in
  let int := Z.lor int (Z.shiftl 0x8000 48) in
  let int := Z.land int (Z.lnot (Z.shiftl 0xf000 64)) in
  Z.lor int (Z.shiftl version 76).

(** [uuid4()] is [UUID(bytes=os.urandom(16), version=4)]; the sixteen bytes
    of the operating system are an argument. *)
Definition uuid4 (urandom : list Byte.byte) : Z := UUID urandom 4.

Definition hexdigit (d : Z) : ascii :=
  nth (Z.to_nat d) (list_ascii_of_string "0123456789abcdef") "0"%char.

(** [UUID.hex] is ['%032x' % self.int]: for an integer below [2^128], its
    32 hexadecimal digits, the most significant first. *)
Definition hex (int : Z) : string :=
  string_of_list_ascii
    (map (fun k => hexdigit ((int / 16 ^ Z.of_nat (31 - k)) mod 16)%Z) (seq 0 32)).

End uuid.

(** ** rest_framework.serializers.ModelSerializer *)

Module ModelSerializer.

(** [Serializer.validate] hands the attributes back. *)
Definition validate (attrs : gmap string value) : gmap string value := attrs.

(** [ModelSerializer.create]: the new row holds the validated data; no
    other row can point at it yet. *)
Definition create (validated_data : gmap string value) : EnkelvoudigInformatieObject :=
  {| attributes := validated_data; related := [] |}.

(** [ModelSerializer.update]:
    [for attr, value in validated_data.items(): setattr(instance, attr, value)]
    and [instance.save()]. *)
Definition update {R} (instance : Model R)
    (validated_data : gmap string value) : Model R :=
  map_fold (fun attr v inst => setattr inst attr v) instance validated_data.

End ModelSerializer.

(** ** EnkelvoudigInformatieObjectSerializer *)

Module EnkelvoudigInformatieObjectSerializer.

(** The attributes of the serializer object that [_get_informatieobjecttype]
    reads and writes. The class never assigns [self.informatieobjecttype]. *)
Record Self := {
  informatieobjecttype : option (gmap string value);
  _informatieobjecttype : option (gmap string value)
}.

Definition validate_indicatie_gebruiksrecht
    (instance : option EnkelvoudigInformatieObject) (indicatie : value) : result value :=
  match instance with
  | Some inst =>
      if negb (truthy indicatie) && exists_ (gebruiksrechten_set inst)
      then Raise (ValidationError "existing-gebruiksrechten")
      else if truthy indicatie && negb (exists_ (gebruiksrechten_set inst))
      then Raise (ValidationError "missing-gebruiksrechten")
      else Ok indicatie
  | None =>
      if truthy indicatie
      then Raise (ValidationError "missing-gebruiksrechten")
      else Ok indicatie
  end.

Definition validate (instance : option EnkelvoudigInformatieObject)
    (attrs : gmap string value) : result (gmap string value) :=
  let valid_attrs := ModelSerializer.validate attrs in
  let lock := get valid_attrs "lock" (VStr "") in
  match instance with
  | Some inst =>
      (* update *)
      if negb (truthy (getattr inst "lock"))
      then Raise (ValidationError "unlocked")
      else if ne lock (getattr inst "lock")
      then Raise (ValidationError "incorrect-lock-id")
      else Ok valid_attrs
  | None =>
      (* create *)
      if truthy lock
      then Raise (ValidationError "lock-in-create")
      else Ok valid_attrs
  end.

Section Client.

(** [client.request(url, 'informatieobjecttype')] of the ZDS client: the
    JSON object of the catalogue, or an exception. *)
Variable request : value -> result (gmap string value).

(** The state threaded through a create: the serializer object and the
    URLs requested from the catalogue so far. *)
Definition _get_informatieobjecttype (self : Self) (requests : list value)
    (informatieobjecttype_url : value)
  : result (gmap string value * Self * list value) :=
  fetched <-
    match informatieobjecttype self with
    | None =>
        response <- request informatieobjecttype_url ;;
        Ok ({| informatieobjecttype := informatieobjecttype self;
               _informatieobjecttype := Some response |},
            (requests ++ [informatieobjecttype_url])%list)
    | Some _ => Ok (self, requests)
    end ;;
  let '(self, requests) := fetched in
  match _informatieobjecttype self with
  | Some r => Ok (r, self, requests)
  | None => Raise (AttributeError "_informatieobjecttype")
  end.

Definition create (self : Self) (requests : list value)
    (validated_data : gmap string value)
  : result (EnkelvoudigInformatieObject * Self * list value) :=
  let '(integriteit, validated_data) := pop validated_data "integriteit" VNone in
  let '(ondertekening, validated_data) := pop validated_data "ondertekening" VNone in
  (* add vertrouwelijkheidaanduiding *)
  added <-
    match validated_data !! "vertrouwelijkheidaanduiding" with
    | None =>
        url <- getitem validated_data "informatieobjecttype" ;;
        got <- _get_informatieobjecttype self requests url ;;
        let '(informatieobjecttype, self, requests) := got in
        v <- getitem informatieobjecttype "vertrouwelijkheidaanduiding" ;;
        Ok (<["vertrouwelijkheidaanduiding" := v]> validated_data, self, requests)
    | Some _ => Ok (validated_data, self, requests)
    end ;;
  let '(validated_data, self, requests) := added in
  let eio := ModelSerializer.create validated_data in
  let eio := setattr eio "integriteit" integriteit in
  let eio := setattr eio "ondertekening" ondertekening in
  Ok (eio, self, requests).

End Client.

Definition update (instance : EnkelvoudigInformatieObject)
    (validated_data : gmap string value) : EnkelvoudigInformatieObject :=
  let '(integriteit, validated_data) := pop validated_data "integriteit" VNone in
  let instance := setattr instance "integriteit" integriteit in
  let '(ondertekening, validated_data) := pop validated_data "ondertekening" VNone in
  let instance := setattr instance "ondertekening" ondertekening in
  ModelSerializer.update instance validated_data.

End EnkelvoudigInformatieObjectSerializer.

(** ** LockEnkelvoudigInformatieObjectSerializer *)

Module LockEnkelvoudigInformatieObjectSerializer.

Definition validate (instance : EnkelvoudigInformatieObject)
    (attrs : gmap string value) : result (gmap string value) :=
  let valid_attrs := ModelSerializer.validate attrs in
  if truthy (getattr instance "lock")
  then Raise (ValidationError "existing-lock")
  else Ok valid_attrs.

(** [urandom] is the [os.urandom(16)] that [uuid.uuid4()] draws. *)
Definition save (instance : EnkelvoudigInformatieObject) (urandom : list Byte.byte)
  : EnkelvoudigInformatieObject :=
  setattr instance "lock" (VStr (uuid.hex (uuid.uuid4 urandom))).

End LockEnkelvoudigInformatieObjectSerializer.

(** ** UnlockEnkelvoudigInformatieObjectSerializer *)

Module UnlockEnkelvoudigInformatieObjectSerializer.

(** [context] is [self.context]; [force_unlock] is a boolean there. *)
Definition validate (instance : EnkelvoudigInformatieObject)
    (context : gmap string bool) (attrs : gmap string value)
  : result (gmap string value) :=
  let valid_attrs := ModelSerializer.validate attrs in
  let force_unlock := default false (context !! "force_unlock") in
  if force_unlock then Ok valid_attrs
  else
    let lock := get valid_attrs "lock" (VStr "") in
    if ne lock (getattr instance "lock")
    then Raise (ValidationError "incorrect-lock-id")
    else Ok valid_attrs.

Definition save (instance : EnkelvoudigInformatieObject) : EnkelvoudigInformatieObject :=
  setattr instance "lock" (VStr "").

End UnlockEnkelvoudigInformatieObjectSerializer.

(** ** The lock and unlock actions *)

(** Modelled from the spec: the viewset whose [lock] action runs the
    serializer is not among the source files. [Acquire] validates
    [LockEnkelvoudigInformatieObjectSerializer] (its only field is read-only,
    so the attributes are empty) and saves it; the token is the [lock] of the
    instance it returns. *)
Definition Acquire (instance : EnkelvoudigInformatieObject) (urandom : list Byte.byte)
  : result EnkelvoudigInformatieObject :=
  _ <- LockEnkelvoudigInformatieObjectSerializer.validate instance ∅ ;;
  Ok (LockEnkelvoudigInformatieObjectSerializer.save instance urandom).

(** Modelled from the spec: the viewset whose [unlock] action runs the
    serializer is not among the source files. [Release] validates
    [UnlockEnkelvoudigInformatieObjectSerializer] on the supplied attributes,
    with [force_unlock] in its context, and saves it. *)
Definition Release (instance : EnkelvoudigInformatieObject) (attrs : gmap string value)
    (forceUnlock : bool) : result EnkelvoudigInformatieObject :=
  _ <- UnlockEnkelvoudigInformatieObjectSerializer.validate instance
         {["force_unlock" := forceUnlock]} attrs ;;
  Ok (UnlockEnkelvoudigInformatieObjectSerializer.save instance).

(** ** ObjectInformatieObjectSerializer *)

(** Migration 0020 adds the column [aard_relatie] to [objectinformatieobject]. *)
Module Migration0020.

Definition model_name : string := "objectinformatieobject".
Definition name : string := "aard_relatie".
Definition choices : list string := ["hoort_bij"; "legt_vast"].
Definition default : string := "hoort_bij".
Definition max_length : nat := 20.

End Migration0020.

Module ObjectInformatieObjectSerializer.

(** The validators that [Meta.extra_kwargs] attaches to fields. *)
Inductive validator :=
| URLValidator
| IsImmutableValidator.

(** [Meta.fields] *)
Definition fields : list string :=
  ["url"; "informatieobject"; "object"; "object_type"].

(** [url] is the hyperlinked identity of the row, which is read-only; the
    other fields are columns without a default, which are required. *)
Definition read_only (name : string) : bool := bool_decide (name = "url").

(** [Meta.extra_kwargs[name]['validators']] *)
Definition validators (name : string) : list validator :=
  if bool_decide (name = "object") then [URLValidator; IsImmutableValidator]
  else if bool_decide (name = "object_type") then [IsImmutableValidator]
  else [].

Section Collaborators.

(** The codes of the field's own [run_validation] for a supplied value
    ([null], [blank], a wrong type, no valid choice, a hyperlink that does
    not resolve), none when the field takes the value. They are raised before
    any validator of [extra_kwargs] runs. *)
Variable field_errors : string -> value -> list string.

(** The codes [URLValidator] raises for a value after its remote lookup,
    none when the URL resolves. *)
Variable url_errors : value -> list string.

(** The codes of [Meta.validators] ([ObjectInformatieObjectValidator],
    [InformatieObjectUniqueValidator]) on the validated attributes, none
    when both accept. *)
Variable class_errors : option ObjectInformatieObject -> gmap string value -> list string.

(** [validator(new_value)], as the codes of the [ValidationError] it
    raises. [IsImmutableValidator] returns at once when the serializer has
    no instance, and otherwise compares the new value with
    [getattr(instance, source)]. *)
Definition call (v : validator) (instance : option ObjectInformatieObject)
    (source : string) (new_value : value) : list string :=
  match v with
  | URLValidator => url_errors new_value
  | IsImmutableValidator =>
      match instance with
      | None => []
      | Some inst =>
          if ne new_value (getattr inst source)
          then [ImmutableFieldModified]
          else []
      end
  end.

(** [Field.run_validators]: every validator runs and the errors add up. *)
Definition run_validators (instance : option ObjectInformatieObject)
    (name : string) (v : value) : list string :=
  flat_map (fun vd => call vd instance name v) (validators name).

(** [Serializer.to_internal_value]: over the writable fields in order, a
    field that is absent from the data is skipped on a partial update and
    is an error otherwise; a field that is present first runs its own
    checks, and its validators only when those pass. Keys of the data that
    are no field of the serializer are never read. *)
Fixpoint to_internal_value (instance : option ObjectInformatieObject)
    (partial : bool) (names : list string) (data : gmap string value)
  : gmap string value * list (string * list string) :=
  match names with
  | [] => (∅, [])
  | name :: names =>
      let '(ret, errors) := to_internal_value instance partial names data in
      if read_only name then (ret, errors)
      else
        match data !! name with
        | None =>
            if partial then (ret, errors)
            else (ret, (name, ["required"]) :: errors)
        | Some v =>
            match field_errors name v with
            | [] =>
                match run_validators instance name v with
                | [] => (<[name := v]> ret, errors)
                | codes => (ret, (name, codes) :: errors)
                end
            | codes => (ret, (name, codes) :: errors)
            end
        end
  end.

(** [Serializer.run_validation]: the field errors are raised together;
    without any, the validators of the class run on the validated
    attributes and their errors go under
    [api_settings.NON_FIELD_ERRORS_KEY]. *)
Definition run_validation (instance : option ObjectInformatieObject)
    (partial : bool) (data : gmap string value) : result (gmap string value) :=
  let '(ret, errors) := to_internal_value instance partial fields data in
  match errors with
  | _ :: _ => Raise (FieldErrors errors)
  | [] =>
      match class_errors instance ret with
      | [] => Ok ret
      | codes => Raise (FieldErrors [("non_field_errors", codes)])
      end
  end.

(** An update request: the serializer validates the data against the
    stored row and [ModelSerializer.update] writes the validated
    attributes. *)
Definition update (instance : ObjectInformatieObject) (partial : bool)
    (data : gmap string value) : result ObjectInformatieObject :=
  validated_data <- run_validation (Some instance) partial data ;;
  Ok (ModelSerializer.update instance validated_data).

End Collaborators.

End ObjectInformatieObjectSerializer.

(** [ImmutableFieldModified] is among the errors of the named field. *)
Definition fails_immutable {A} (r : result A) (name : string) : Prop :=
  exists errors codes,
    r = Raise (FieldErrors errors) /\
    (name, codes) ∈ errors /\ ImmutableFieldModified ∈ codes.

(** The [Gebruiksrechten] rows that point at the object of a request: those
    of the instance on an update, none on a create. *)
Definition usage_rights (instance : option EnkelvoudigInformatieObject)
  : list Gebruiksrechten :=
  match instance with
  | Some inst => gebruiksrechten_set inst
  | None => []
  end.

(** The invariant that joins the indicator and the usage rights: the stored
    indicator is true only when a [Gebruiksrechten] row points at the object. *)
Definition indicator_consistent (inst : EnkelvoudigInformatieObject) : Prop :=
  truthy (getattr inst "indicatie_gebruiksrecht") = true ->
  gebruiksrechten_set inst <> [].

(** The bits of a version-4 UUID that come from the random bytes: all 128
    but the two variant bits (62 and 63) and the four version bits (76 to
    79). *)
Definition random_bits : Z :=
  Z.ldiff (Z.ldiff (Z.ones 128) (Z.shiftl 0xc000 48)) (Z.shiftl 0xf000 64).

(** Bit [p] of byte [i] of the draw is overwritten by [UUID(version=4)]: the
    high nibble of the seventh byte holds the version and the two high bits
    of the ninth hold the variant. *)
Definition overwritten (i : nat) (p : Z) : Prop :=
  (i = 6 /\ (4 <= p)%Z) \/ (i = 8 /\ (6 <= p)%Z).

(** ** Example rows and payloads *)

Module Examples.

Definition rights : Gebruiksrechten :=
  {| startdatum := "2019-07-01"; einddatum := VNone;
     omschrijving_voorwaarden := "Een hele set onredelijke voorwaarden" |}.

(** An unlocked document without usage rights. *)
Definition unlocked_doc : EnkelvoudigInformatieObject :=
  {| attributes := {[ "titel" := VStr "some titel"; "lock" := VStr "" ]};
     related := [] |}.

(** A document checked out with token [0f60f6d2d2714c809ed762372f5a363a],
    with an integrity group and one usage-rights row. *)
Definition locked_doc : EnkelvoudigInformatieObject :=
  {| attributes :=
       {[ "titel" := VStr "some titel";
          "lock" := VStr "0f60f6d2d2714c809ed762372f5a363a";
          "integriteit" :=
            VGroup [("algoritme", "md5"); ("waarde", "27c3a009a3cbba674d0b3e836f2d4685");
                    ("datum", "2018-12-13")];
          "ondertekening" := VGroup [("soort", "digitaal"); ("datum", "2018-12-13")];
          "indicatie_gebruiksrecht" := VBool true ]};
     related := [rights] |}.

Definition relation : ObjectInformatieObject :=
  {| attributes :=
       {[ "informatieobject" := VStr "b2a5e0a9";
          "object" := VStr "https://zrc.nl/api/v1/zaken/1234";
          "object_type" := VStr "zaak";
          Migration0020.name := VStr Migration0020.default ]};
     related := () |}.

Definition urandom : list Byte.byte :=
  [Byte.x0f; Byte.x60; Byte.xf6; Byte.xd2; Byte.xd2; Byte.x71; Byte.xfc; Byte.x80;
   Byte.x1e; Byte.xd7; Byte.x62; Byte.x37; Byte.x2f; Byte.x5a; Byte.x36; Byte.x3a].

(** A catalogue that knows one type. *)
Definition request (url : value) : result (gmap string value) :=
  if bool_decide (url = VStr "https://ztc.nl/api/v1/informatieobjecttypen/1")
  then Ok {[ "omschrijving" := VStr "besluit";
             "vertrouwelijkheidaanduiding" := VStr "openbaar" ]}
  else Raise (ClientError url).

Definition fresh : EnkelvoudigInformatieObjectSerializer.Self :=
  {| EnkelvoudigInformatieObjectSerializer.informatieobjecttype := None;
     EnkelvoudigInformatieObjectSerializer._informatieobjecttype := None |}.

End Examples.

(** ** Serializers with declared field validators *)

(** The field machinery that [ObjectInformatieObjectSerializer] runs, for any
    [Meta]: the declared fields, which of them are read-only, which are
    required, and the validators of [extra_kwargs]. *)
Module Serializer.

Section Meta.

Variable fields : list string.
Variable read_only : string -> bool.
Variable required : string -> bool.
Variable validators : string -> list ObjectInformatieObjectSerializer.validator.
Variable field_errors : string -> value -> list string.
Variable url_errors : value -> list string.
Variable class_errors : option (Model unit) -> gmap string value -> list string.

Definition run_validators (instance : option (Model unit))
    (name : string) (v : value) : list string :=
  flat_map (fun vd => ObjectInformatieObjectSerializer.call url_errors vd instance name v)
    (validators name).

Fixpoint to_internal_value (instance : option (Model unit))
    (partial : bool) (names : list string) (data : gmap string value)
  : gmap string value * list (string * list string) :=
  match names with
  | [] => (∅, [])
  | name :: names =>
      let '(ret, errors) := to_internal_value instance partial names data in
      if read_only name then (ret, errors)
      else
        match data !! name with
        | None =>
            if partial then (ret, errors)
            else if required name then (ret, (name, ["required"]) :: errors)
            else (ret, errors)
        | Some v =>
            match field_errors name v with
            | [] =>
                match run_validators instance name v with
                | [] => (<[name := v]> ret, errors)
                | codes => (ret, (name, codes) :: errors)
                end
            | codes => (ret, (name, codes) :: errors)
            end
        end
  end.

Definition run_validation (instance : option (Model unit))
    (partial : bool) (data : gmap string value) : result (gmap string value) :=
  let '(ret, errors) := to_internal_value instance partial fields data in
  match errors with
  | _ :: _ => Raise (FieldErrors errors)
  | [] =>
      match class_errors instance ret with
      | [] => Ok ret
      | codes => Raise (FieldErrors [("non_field_errors", codes)])
      end
  end.

Definition update (instance : Model unit) (partial : bool)
    (data : gmap string value) : result (Model unit) :=
  validated_data <- run_validation (Some instance) partial data ;;
  Ok (ModelSerializer.update instance validated_data).

End Meta.

End Serializer.

(** ** GebruiksrechtenSerializer *)

Module GebruiksrechtenSerializer.

(** [Meta.fields] *)
Definition fields : list string :=
  ["url"; "informatieobject"; "startdatum"; "einddatum"; "omschrijving_voorwaarden"].

(** [url] is the hyperlinked identity of the row. *)
Definition read_only (name : string) : bool := bool_decide (name = "url").

(** [Meta.extra_kwargs[name]['validators']] *)
Definition validators (name : string)
  : list ObjectInformatieObjectSerializer.validator :=
  if bool_decide (name = "informatieobject")
  then [ObjectInformatieObjectSerializer.IsImmutableValidator]
  else [].

(** The serializer declares no [URLValidator] and no [Meta.validators]; which
    columns are required and what the fields themselves refuse is decided by
    the model, parameters here. *)
Definition run_validation (required : string -> bool)
    (field_errors : string -> value -> list string) :=
  Serializer.run_validation fields read_only required validators field_errors
    (fun _ => []) (fun _ _ => []).

Definition update (required : string -> bool)
    (field_errors : string -> value -> list string) :=
  Serializer.update fields read_only required validators field_errors
    (fun _ => []) (fun _ _ => []).

End GebruiksrechtenSerializer.

(** ** Sequences of requests *)

(** [update] with the dictionary its caller passed in: the two [pop]s remove
    the nested groups from that very dictionary, so the caller holds it
    without them afterwards. *)
Definition update_with_dictionary (instance : EnkelvoudigInformatieObject)
    (validated_data : gmap string value)
  : EnkelvoudigInformatieObject * gmap string value :=
  let '(integriteit, validated_data) := pop validated_data "integriteit" VNone in
  let instance := setattr instance "integriteit" integriteit in
  let '(ondertekening, validated_data) := pop validated_data "ondertekening" VNone in
  let instance := setattr instance "ondertekening" ondertekening in
  (ModelSerializer.update instance validated_data, validated_data).

(** The row of a relation after a sequence of update requests, each a pair
    of the [partial] flag and the data: an accepted request writes the row, a
    rejected one leaves it as it is. *)
Definition relation_after (field_errors : string -> value -> list string)
    (url_errors : value -> list string)
    (class_errors : option ObjectInformatieObject -> gmap string value -> list string)
    (instance : ObjectInformatieObject) (requests : list (bool * gmap string value))
  : ObjectInformatieObject :=
  fold_left
    (fun inst request =>
       match ObjectInformatieObjectSerializer.update field_errors url_errors
               class_errors inst request.1 request.2 with
       | Ok inst' => inst'
       | Raise _ => inst
       end)
    requests instance.

(** The six bits of a UUID that [UUID(version=4)] fixes. *)
Definition fixed_bits : Z := Z.lor (Z.shiftl 0xc000 48) (Z.shiftl 0xf000 64).

(** ** AnyBase64File *)

(** A stored file as the field sees it: whether its storage is a
    [PrivateMediaFileSystemStorage], the row it belongs to, and its path. *)
Record FieldFile := {
  storage_is_private : bool;
  file_instance : EnkelvoudigInformatieObject;
  file_name : string
}.

(** What [to_representation] gives: a value, or the [AssertionError] of its
    [assert]. *)
Inductive representation :=
| Represented (v : value)
| AssertionError (message : string).

Module AnyFileType.

(** [__contains__] *)
Definition contains (item : string) : bool := true.

End AnyFileType.

Module AnyBase64File.

Definition get_file_extension (filename : string) (decoded_file : list Byte.byte)
  : string := "bin".

Section Framework.

(** [Base64FileField.to_representation], which the field falls back on. *)
Variable super_to_representation : FieldFile -> value.

(** [reverse(view_name, kwargs={name: v}, request=request)] for the request
    of the serializer context. *)
Variable reverse : string -> string * value -> value.

(** [view_name] is [self.view_name], [None] unless the field was given one
    (the [assert] fails on [None] and on the empty string); [lookup_field] is
    that of the [url] field of the parent serializer. *)
Definition to_representation (view_name : option string) (represent_in_base64 : bool)
    (lookup_field : string) (file : FieldFile) : representation :=
  let is_private_storage := storage_is_private file in
  if negb is_private_storage || represent_in_base64
  then Represented (super_to_representation file)
  else
    match view_name with
    | Some view_name =>
        if bool_decide (view_name = "")
        then AssertionError "You must pass the `view_name` kwarg for private media fields"
        else
          let model_instance := file_instance file in
          Represented (reverse view_name (lookup_field, getattr model_instance lookup_field))
    | None => AssertionError "You must pass the `view_name` kwarg for private media fields"
    end.

(** The field [inhoud] of [EnkelvoudigInformatieObjectSerializer]: its
    [view_name] is declared, it is not told to represent in base64, and the
    [url] field of the serializer looks up by [uuid]. *)
Definition inhoud (file : FieldFile) : representation :=
  to_representation (Some "enkelvoudiginformatieobject-download") false "uuid" file.

End Framework.

End AnyBase64File.

(** * Properties *)

Module EIO := EnkelvoudigInformatieObjectSerializer.
Module LockEIO := LockEnkelvoudigInformatieObjectSerializer.
Module UnlockEIO := UnlockEnkelvoudigInformatieObjectSerializer.
Module OIO := ObjectInformatieObjectSerializer.

(** ** Values and attributes *)

Lemma ne_false_iff a b : ne a b = false <-> a = b.
Proof.
  unfold ne. rewrite negb_false_iff, bool_decide_eq_true. reflexivity.
Qed.

Lemma ne_true_iff a b : ne a b = true <-> a <> b.
Proof.
  unfold ne. rewrite negb_true_iff, bool_decide_eq_false. reflexivity.
Qed.

Lemma truthy_VStr s : truthy (VStr s) = true <-> s <> "".
Proof.
  simpl. rewrite negb_true_iff, bool_decide_eq_false. reflexivity.
Qed.

Lemma getattr_setattr_eq {R} (inst : Model R) name v :
  getattr (setattr inst name v) name = v.
Proof. unfold getattr, setattr. simpl. by rewrite lookup_insert_eq. Qed.

Lemma getattr_setattr_ne {R} (inst : Model R) name name' v :
  name <> name' -> getattr (setattr inst name v) name' = getattr inst name'.
Proof. intros Hne. unfold getattr, setattr. simpl. by rewrite lookup_insert_ne. Qed.

Lemma related_setattr {R} (inst : Model R) name v :
  related (setattr inst name v) = related inst.
Proof. reflexivity. Qed.

(** ** The lock discipline of create and update *)

(** C4. An update of an existing information object fails with [Unlocked]
    when the stored lock is empty; with a non-empty stored lock it fails with
    [LockMismatch] when the supplied token (the empty string when the payload
    has none) differs from it, whatever else the payload holds, and the lock
    validation succeeds, handing the attributes back, when they are equal. *)
Theorem validate_for_update (inst : EnkelvoudigInformatieObject)
    (attrs : gmap string value) :
  (truthy (getattr inst "lock") = false ->
     EIO.validate (Some inst) attrs = Raise Unlocked) /\
  (truthy (getattr inst "lock") = true ->
     get attrs "lock" (VStr "") <> getattr inst "lock" ->
     EIO.validate (Some inst) attrs = Raise LockMismatch) /\
  (truthy (getattr inst "lock") = true ->
     get attrs "lock" (VStr "") = getattr inst "lock" ->
     EIO.validate (Some inst) attrs = Ok attrs).
Proof.
  unfold EIO.validate, ModelSerializer.validate.
  repeat split.
  - intros ->. reflexivity.
  - intros -> Hne. simpl. apply ne_true_iff in Hne. by rewrite Hne.
  - intros -> Heq. simpl. apply ne_false_iff in Heq. by rewrite Heq.
Qed.

Lemma validate_for_update_witness :
  EIO.validate (Some Examples.unlocked_doc) {[ "lock" := VStr "" ]} = Raise Unlocked /\
  EIO.validate (Some Examples.locked_doc)
    {[ "lock" := VStr "wrong"; "titel" := VStr "changed" ]} = Raise LockMismatch /\
  EIO.validate (Some Examples.locked_doc)
    {[ "lock" := VStr "0f60f6d2d2714c809ed762372f5a363a"; "titel" := VStr "changed" ]}
  = Ok {[ "lock" := VStr "0f60f6d2d2714c809ed762372f5a363a"; "titel" := VStr "changed" ]}.
Proof.
  split; [| split].
  - apply (proj1 (validate_for_update Examples.unlocked_doc _)). vm_compute. reflexivity.
  - apply (proj1 (proj2 (validate_for_update Examples.locked_doc _))).
    + vm_compute. reflexivity.
    + vm_compute. discriminate.
  - apply (proj2 (proj2 (validate_for_update Examples.locked_doc _))).
    + vm_compute. reflexivity.
    + vm_compute. reflexivity.
Defined.

(** C5. A create request (the serializer has no instance) whose attributes
    carry a non-empty lock token fails with [LockedAtCreate]. *)
Theorem validate_for_create (attrs : gmap string value) (token : string) :
  attrs !! "lock" = Some (VStr token) ->
  token <> "" ->
  EIO.validate None attrs = Raise LockedAtCreate.
Proof.
  intros Hlock Htoken.
  unfold EIO.validate, ModelSerializer.validate, get.
  rewrite Hlock. simpl.
  apply truthy_VStr in Htoken. simpl in Htoken. by rewrite Htoken.
Qed.

Lemma validate_for_create_witness :
  EIO.validate None {[ "lock" := VStr "0f60f6d2"; "titel" := VStr "t" ]}
  = Raise LockedAtCreate.
Proof.
  apply (validate_for_create _ "0f60f6d2").
  - vm_compute. reflexivity.
  - discriminate.
Defined.

(** ** Lock and unlock *)

Lemma getattr_unlock_save (inst : EnkelvoudigInformatieObject) :
  getattr (UnlockEIO.save inst) "lock" = VStr "".
Proof. apply getattr_setattr_eq. Qed.

Lemma unlock_validate_force (inst : EnkelvoudigInformatieObject) attrs :
  UnlockEIO.validate inst {[ "force_unlock" := true ]} attrs = Ok attrs.
Proof.
  unfold UnlockEIO.validate. by rewrite lookup_singleton_eq.
Qed.

Lemma unlock_validate_no_force (inst : EnkelvoudigInformatieObject) attrs :
  UnlockEIO.validate inst {[ "force_unlock" := false ]} attrs =
  if ne (get attrs "lock" (VStr "")) (getattr inst "lock")
  then Raise LockMismatch else Ok attrs.
Proof.
  unfold UnlockEIO.validate. by rewrite lookup_singleton_eq.
Qed.

(** C7. [Release] with [forceUnlock] set clears the stored lock whatever token
    is supplied; without it, [Release] fails with [LockMismatch] when the
    supplied token (the empty string when none is supplied) differs from the
    stored lock, and clears the stored lock when they are equal. *)
Theorem release_spec (inst : EnkelvoudigInformatieObject) (attrs : gmap string value) :
  (exists inst', Release inst attrs true = Ok inst' /\
                 getattr inst' "lock" = VStr "") /\
  (get attrs "lock" (VStr "") <> getattr inst "lock" ->
     Release inst attrs false = Raise LockMismatch) /\
  (get attrs "lock" (VStr "") = getattr inst "lock" ->
     exists inst', Release inst attrs false = Ok inst' /\
                   getattr inst' "lock" = VStr "").
Proof.
  unfold Release. repeat split.
  - rewrite unlock_validate_force. simpl. eexists. split; [reflexivity |].
    apply getattr_unlock_save.
  - intros Hne. rewrite unlock_validate_no_force.
    apply ne_true_iff in Hne. by rewrite Hne.
  - intros Heq. rewrite unlock_validate_no_force.
    apply ne_false_iff in Heq. rewrite Heq. simpl.
    eexists. split; [reflexivity |]. apply getattr_unlock_save.
Qed.

Lemma release_spec_witness :
  Release Examples.locked_doc {[ "lock" := VStr "wrong-token" ]} false = Raise LockMismatch /\
  exists inst',
    Release Examples.locked_doc {[ "lock" := VStr "0f60f6d2d2714c809ed762372f5a363a" ]} false
    = Ok inst' /\ getattr inst' "lock" = VStr "".
Proof.
  split.
  - apply (proj1 (proj2 (release_spec Examples.locked_doc _))).
    vm_compute. discriminate.
  - apply (proj2 (proj2 (release_spec Examples.locked_doc _))).
    vm_compute. reflexivity.
Defined.

(** C10. On an unlocked object (the stored lock is the empty string),
    [Release] without [forceUnlock] and with an empty or omitted token
    succeeds: the empty supplied token equals the empty stored lock, no error
    is raised, the lock stays empty and no other attribute changes. *)
Theorem release_unlocked (inst : EnkelvoudigInformatieObject) (attrs : gmap string value) :
  getattr inst "lock" = VStr "" ->
  attrs !! "lock" = None \/ attrs !! "lock" = Some (VStr "") ->
  exists inst',
    Release inst attrs false = Ok inst' /\
    getattr inst' "lock" = VStr "" /\
    forall name, name <> "lock" -> getattr inst' name = getattr inst name.
Proof.
  intros Hstored Hsupplied.
  assert (get attrs "lock" (VStr "") = getattr inst "lock") as Heq.
  { unfold get. destruct Hsupplied as [-> | ->]; by rewrite Hstored. }
  unfold Release. rewrite unlock_validate_no_force.
  apply ne_false_iff in Heq. rewrite Heq. simpl.
  eexists. split; [reflexivity |]. split.
  - apply getattr_unlock_save.
  - intros name Hname. by apply getattr_setattr_ne.
Qed.

Lemma release_unlocked_witness :
  exists inst',
    Release Examples.unlocked_doc ∅ false = Ok inst' /\
    getattr inst' "lock" = VStr "" /\
    forall name, name <> "lock" -> getattr inst' name = getattr Examples.unlocked_doc name.
Proof.
  apply (release_unlocked Examples.unlocked_doc ∅).
  - vm_compute. reflexivity.
  - left. vm_compute. reflexivity.
Defined.

(** ** The usage-rights indicator *)

Lemma exists_false_iff rows : exists_ rows = false <-> rows = [].
Proof. destruct rows; simpl; split; congruence. Qed.

Lemma exists_true_iff rows : exists_ rows = true <-> rows <> [].
Proof. destruct rows; simpl; split; congruence. Qed.

Lemma validate_indicatie_true instance indicatie :
  truthy indicatie = true ->
  EIO.validate_indicatie_gebruiksrecht instance indicatie =
  if exists_ (usage_rights instance) then Ok indicatie else Raise MissingUsageRights.
Proof.
  intros Ht. unfold EIO.validate_indicatie_gebruiksrecht.
  destruct instance as [inst |]; simpl; rewrite Ht; simpl; [| reflexivity].
  by destruct (exists_ (gebruiksrechten_set inst)).
Qed.

Lemma validate_indicatie_false instance indicatie :
  truthy indicatie = false ->
  EIO.validate_indicatie_gebruiksrecht instance indicatie =
  if exists_ (usage_rights instance) then Raise UsageRightsConflict else Ok indicatie.
Proof.
  intros Ht. unfold EIO.validate_indicatie_gebruiksrecht.
  destruct instance as [inst |]; simpl; rewrite Ht; simpl; [| reflexivity].
  by destruct (exists_ (gebruiksrechten_set inst)).
Qed.

(** C2, the claim as stated fails: an update that sets the indicator to true
    on an object that has a usage-rights row is accepted. *)
Lemma indicatie_true_accepted_with_usage_rights :
  EIO.validate_indicatie_gebruiksrecht (Some Examples.locked_doc) (VBool true)
  = Ok (VBool true).
Proof. reflexivity. Qed.

(** C2, amended. A request that sets [indicatie_gebruiksrecht] to true on the
    information-object resource is rejected with [MissingUsageRights] on a
    create, and on an update when no usage-rights row references the object;
    on an update of an object that has a usage-rights row the value is
    accepted. *)
Theorem indicatie_true_rejected_without_usage_rights
    (instance : option EnkelvoudigInformatieObject) (indicatie : value) :
  truthy indicatie = true ->
  (instance = None ->
     EIO.validate_indicatie_gebruiksrecht instance indicatie = Raise MissingUsageRights) /\
  (forall inst, instance = Some inst -> gebruiksrechten_set inst = [] ->
     EIO.validate_indicatie_gebruiksrecht instance indicatie = Raise MissingUsageRights) /\
  (forall inst, instance = Some inst -> gebruiksrechten_set inst <> [] ->
     EIO.validate_indicatie_gebruiksrecht instance indicatie = Ok indicatie).
Proof.
  intros Ht. rewrite (validate_indicatie_true _ _ Ht). repeat split.
  - intros ->. reflexivity.
  - intros inst -> Hrows. simpl. by rewrite Hrows.
  - intros inst -> Hrows. simpl. apply exists_true_iff in Hrows. by rewrite Hrows.
Qed.

Lemma indicatie_true_rejected_without_usage_rights_witness :
  EIO.validate_indicatie_gebruiksrecht None (VBool true) = Raise MissingUsageRights /\
  EIO.validate_indicatie_gebruiksrecht (Some Examples.unlocked_doc) (VBool true)
  = Raise MissingUsageRights.
Proof.
  split.
  - apply (proj1 (indicatie_true_rejected_without_usage_rights None (VBool true) eq_refl)).
    reflexivity.
  - apply (proj1 (proj2 (indicatie_true_rejected_without_usage_rights
                           (Some Examples.unlocked_doc) (VBool true) eq_refl))
             Examples.unlocked_doc); reflexivity.
Defined.

(** ** Writes *)

(** The loop of [ModelSerializer.update] overwrites exactly the attributes
    named in the validated data. *)
Lemma model_update_spec {R} (inst : Model R) (validated_data : gmap string value) :
  ModelSerializer.update inst validated_data =
  {| attributes := validated_data ∪ attributes inst; related := related inst |}.
Proof.
  unfold ModelSerializer.update.
  apply (map_fold_weak_ind
           (fun r m => r = {| attributes := m ∪ attributes inst;
                              related := related inst |})).
  - rewrite (left_id_L ∅ (∪)). by destruct inst.
  - intros attr v m r _ ->. unfold setattr. simpl. by rewrite insert_union_l.
Qed.

Lemma update_related (inst : EnkelvoudigInformatieObject) validated_data :
  related (EIO.update inst validated_data) = related inst.
Proof. unfold EIO.update, pop. by rewrite model_update_spec. Qed.

Lemma update_attributes (inst : EnkelvoudigInformatieObject) validated_data name :
  attributes (EIO.update inst validated_data) !! name =
  if bool_decide (name = "integriteit")
  then Some (default VNone (validated_data !! "integriteit"))
  else if bool_decide (name = "ondertekening")
  then Some (default VNone (validated_data !! "ondertekening"))
  else match validated_data !! name with
       | Some v => Some v
       | None => attributes inst !! name
       end.
Proof.
  unfold EIO.update, pop. rewrite model_update_spec. simpl.
  rewrite lookup_union.
  repeat case_bool_decide; subst.
  - by rewrite lookup_delete_ne, lookup_delete_eq, lookup_insert_ne, lookup_insert_eq.
  - rewrite lookup_delete_eq, lookup_insert_eq.
    by rewrite lookup_delete_ne.
  - rewrite !lookup_delete_ne, !lookup_insert_ne by done.
    by destruct (validated_data !! name), (attributes inst !! name).
Qed.

(** An attribute outside the two nested groups keeps its value when the
    validated data does not name it, and takes the supplied value otherwise. *)
Lemma update_flat_attribute (inst : EnkelvoudigInformatieObject) validated_data name :
  name <> "integriteit" -> name <> "ondertekening" ->
  getattr (EIO.update inst validated_data) name =
  default (getattr inst name) (validated_data !! name).
Proof.
  intros Hi Ho. unfold getattr. rewrite update_attributes.
  rewrite !bool_decide_eq_false_2 by done.
  by destruct (validated_data !! name).
Qed.

(** The nested groups are assigned on every update: to the supplied value,
    and to [None] when the validated data does not name them. *)
Lemma update_nested_group (inst : EnkelvoudigInformatieObject) validated_data name :
  name = "integriteit" \/ name = "ondertekening" ->
  getattr (EIO.update inst validated_data) name =
  default VNone (validated_data !! name).
Proof.
  intros [-> | ->]; unfold getattr; rewrite update_attributes; reflexivity.
Qed.

(** C1, the code at a partial update that carries the right lock token and a
    new title only: the title is written and the lock is kept, but the
    integrity and signature groups, which the payload does not mention and
    which held values before, are both [None] afterwards. *)
Theorem partial_update_clears_nested_groups :
  let validated_data : gmap string value :=
    {[ "lock" := VStr "0f60f6d2d2714c809ed762372f5a363a"; "titel" := VStr "changed" ]} in
  let updated := EIO.update Examples.locked_doc validated_data in
  EIO.validate (Some Examples.locked_doc) validated_data = Ok validated_data /\
  getattr updated "titel" = VStr "changed" /\
  getattr updated "indicatie_gebruiksrecht" = VBool true /\
  getattr Examples.locked_doc "integriteit" =
    VGroup [("algoritme", "md5"); ("waarde", "27c3a009a3cbba674d0b3e836f2d4685");
            ("datum", "2018-12-13")] /\
  getattr updated "integriteit" = VNone /\
  getattr Examples.locked_doc "ondertekening" =
    VGroup [("soort", "digitaal"); ("datum", "2018-12-13")] /\
  getattr updated "ondertekening" = VNone.
Proof. vm_compute. repeat split. Qed.

(** ** Create *)

Lemma lookup_after_pops (validated_data : gmap string value) name :
  name <> "integriteit" -> name <> "ondertekening" ->
  delete "ondertekening" (delete "integriteit" validated_data) !! name
  = validated_data !! name.
Proof. intros Hi Ho. by rewrite !lookup_delete_ne. Qed.

(** What a successful create leaves in the new row. *)
Lemma create_row request self requests validated_data eio self' requests' :
  EIO.create request self requests validated_data = Ok (eio, self', requests') ->
  related eio = [] /\
  forall name,
    name <> "integriteit" -> name <> "ondertekening" ->
    name <> "vertrouwelijkheidaanduiding" ->
    attributes eio !! name = validated_data !! name.
Proof.
  unfold EIO.create, pop.
  destruct (delete "ondertekening" (delete "integriteit" validated_data)
              !! "vertrouwelijkheidaanduiding") as [c |] eqn:Hc.
  - simpl. intros [= <- <- <-]. split; [reflexivity |].
    intros name Hi Ho Hv. simpl.
    rewrite !lookup_insert_ne by done. by apply lookup_after_pops.
  - destruct (getitem _ "informatieobjecttype") as [url | e]; [| discriminate].
    simpl.
    destruct (EIO._get_informatieobjecttype request self requests url)
      as [[[iot self1] requests1] | e]; [| discriminate].
    simpl.
    destruct (getitem iot "vertrouwelijkheidaanduiding") as [v | e]; [| discriminate].
    simpl. intros [= <- <- <-]. split; [reflexivity |].
    intros name Hi Ho Hv. simpl.
    rewrite !lookup_insert_ne by done. by apply lookup_after_pops.
Qed.

(** C9. On a create whose validated data has no
    [vertrouwelijkheidaanduiding], the serializer (which has no
    [informatieobjecttype] attribute of its own) requests the declared
    [informatieobjecttype] from the catalogue, once, and the new object stores
    the [vertrouwelijkheidaanduiding] of the answer; when the validated data
    supplies the classification, the new object stores the supplied value and
    nothing is requested. *)
Theorem create_resolves_classification
    (request : value -> result (gmap string value))
    (self : EIO.Self) (requests : list value) (validated_data : gmap string value) :
  (forall url response c,
     EIO.informatieobjecttype self = None ->
     validated_data !! "vertrouwelijkheidaanduiding" = None ->
     validated_data !! "informatieobjecttype" = Some url ->
     request url = Ok response ->
     response !! "vertrouwelijkheidaanduiding" = Some c ->
     exists eio self',
       EIO.create request self requests validated_data
       = Ok (eio, self', (requests ++ [url])%list) /\
       getattr eio "vertrouwelijkheidaanduiding" = c) /\
  (forall c,
     validated_data !! "vertrouwelijkheidaanduiding" = Some c ->
     exists eio,
       EIO.create request self requests validated_data = Ok (eio, self, requests) /\
       getattr eio "vertrouwelijkheidaanduiding" = c).
Proof.
  split.
  - intros url response c Hself Habsent Hurl Hreq Hc.
    unfold EIO.create, pop.
    rewrite lookup_after_pops by done. rewrite Habsent.
    unfold getitem at 1. rewrite lookup_after_pops by done. rewrite Hurl. simpl.
    unfold EIO._get_informatieobjecttype. rewrite Hself, Hreq. simpl.
    unfold getitem. rewrite Hc. simpl.
    eexists _, _. split; [reflexivity |].
    unfold getattr. simpl.
    rewrite !lookup_insert_ne by done. by rewrite lookup_insert_eq.
  - intros c Hc.
    unfold EIO.create, pop.
    rewrite lookup_after_pops by done. rewrite Hc. simpl.
    eexists. split; [reflexivity |].
    unfold getattr. simpl.
    rewrite !lookup_insert_ne by done.
    rewrite lookup_after_pops by done. by rewrite Hc.
Qed.

Lemma create_resolves_classification_witness :
  (exists eio self',
     EIO.create Examples.request Examples.fresh []
       {[ "titel" := VStr "detailed summary";
          "informatieobjecttype" := VStr "https://ztc.nl/api/v1/informatieobjecttypen/1" ]}
     = Ok (eio, self', [VStr "https://ztc.nl/api/v1/informatieobjecttypen/1"]) /\
     getattr eio "vertrouwelijkheidaanduiding" = VStr "openbaar") /\
  (exists eio,
     EIO.create Examples.request Examples.fresh []
       {[ "vertrouwelijkheidaanduiding" := VStr "geheim";
          "informatieobjecttype" := VStr "https://ztc.nl/api/v1/informatieobjecttypen/1" ]}
     = Ok (eio, Examples.fresh, []) /\
     getattr eio "vertrouwelijkheidaanduiding" = VStr "geheim").
Proof.
  split.
  - apply (proj1 (create_resolves_classification Examples.request Examples.fresh [] _)
             (VStr "https://ztc.nl/api/v1/informatieobjecttypen/1")
             {[ "omschrijving" := VStr "besluit";
                "vertrouwelijkheidaanduiding" := VStr "openbaar" ]}
             (VStr "openbaar")).
    + reflexivity.
    + vm_compute. reflexivity.
    + vm_compute. reflexivity.
    + vm_compute. reflexivity.
    + vm_compute. reflexivity.
  - apply (proj2 (create_resolves_classification Examples.request Examples.fresh [] _)
             (VStr "geheim")).
    vm_compute. reflexivity.
Defined.

(** ** The indicator invariant *)

(** A value the field validator accepts on a create is not true. *)
Lemma accepted_on_create_not_true indicatie v :
  EIO.validate_indicatie_gebruiksrecht None indicatie = Ok v ->
  v = indicatie /\ truthy v = false.
Proof.
  simpl. destruct (truthy indicatie) eqn:Ht; [discriminate |].
  intros [= <-]. by split.
Qed.

(** A value the field validator accepts on an update is true exactly when a
    usage-rights row points at the object. *)
Lemma accepted_on_update_iff inst indicatie v :
  EIO.validate_indicatie_gebruiksrecht (Some inst) indicatie = Ok v ->
  v = indicatie /\ (truthy v = true <-> gebruiksrechten_set inst <> []).
Proof.
  unfold EIO.validate_indicatie_gebruiksrecht.
  rewrite <- exists_true_iff.
  destruct (truthy indicatie) eqn:Ht, (exists_ (gebruiksrechten_set inst)) eqn:He;
    simpl; try discriminate; intros [= <-]; rewrite Ht; split; try done.
Qed.

(** C8. The field validator rejects a true indicator with
    [MissingUsageRights] when no usage-rights row points at the object (always
    so on a create), and a false or unknown indicator with
    [UsageRightsConflict] when at least one row does. Hence an update that
    writes an indicator the validator accepted keeps the invariant that the
    stored indicator is true only while a usage-rights row exists, and a
    successful create of validated data establishes it. *)
Theorem indicator_invariant_preserved :
  (forall instance indicatie,
     truthy indicatie = true -> usage_rights instance = [] ->
     EIO.validate_indicatie_gebruiksrecht instance indicatie = Raise MissingUsageRights) /\
  (forall instance indicatie,
     truthy indicatie = false -> usage_rights instance <> [] ->
     EIO.validate_indicatie_gebruiksrecht instance indicatie = Raise UsageRightsConflict) /\
  (forall inst validated_data,
     indicator_consistent inst ->
     (forall indicatie,
        validated_data !! "indicatie_gebruiksrecht" = Some indicatie ->
        EIO.validate_indicatie_gebruiksrecht (Some inst) indicatie = Ok indicatie) ->
     indicator_consistent (EIO.update inst validated_data)) /\
  (forall request self requests validated_data eio self' requests',
     (forall indicatie,
        validated_data !! "indicatie_gebruiksrecht" = Some indicatie ->
        EIO.validate_indicatie_gebruiksrecht None indicatie = Ok indicatie) ->
     EIO.create request self requests validated_data = Ok (eio, self', requests') ->
     indicator_consistent eio).
Proof.
  repeat split.
  - intros instance indicatie Ht Hrows.
    rewrite validate_indicatie_true by done. by rewrite Hrows.
  - intros instance indicatie Ht Hrows.
    rewrite validate_indicatie_false by done.
    apply exists_true_iff in Hrows. by rewrite Hrows.
  - intros inst validated_data Hinv Hvalid.
    unfold indicator_consistent, gebruiksrechten_set.
    rewrite update_related, update_flat_attribute by done.
    destruct (validated_data !! "indicatie_gebruiksrecht") as [v |] eqn:Hv; simpl.
    + intros Ht. by apply (accepted_on_update_iff inst v v (Hvalid v eq_refl)).
    + apply Hinv.
  - intros request self requests validated_data eio self' requests' Hvalid Hcreate.
    destruct (create_row _ _ _ _ _ _ _ Hcreate) as [_ Hattrs].
    unfold indicator_consistent, getattr.
    rewrite Hattrs by done.
    destruct (validated_data !! "indicatie_gebruiksrecht") as [v |] eqn:Hv; simpl.
    + destruct (accepted_on_create_not_true v v (Hvalid v eq_refl)) as [_ Hf].
      rewrite Hf. discriminate.
    + discriminate.
Qed.

Lemma indicator_invariant_preserved_witness :
  EIO.validate_indicatie_gebruiksrecht (Some Examples.unlocked_doc) (VBool true)
  = Raise MissingUsageRights /\
  EIO.validate_indicatie_gebruiksrecht (Some Examples.locked_doc) VNone
  = Raise UsageRightsConflict /\
  indicator_consistent
    (EIO.update Examples.locked_doc {[ "indicatie_gebruiksrecht" := VBool true ]}).
Proof.
  split; [| split].
  - apply (proj1 indicator_invariant_preserved (Some Examples.unlocked_doc) (VBool true));
      reflexivity.
  - apply (proj1 (proj2 indicator_invariant_preserved) (Some Examples.locked_doc) VNone).
    + reflexivity.
    + vm_compute. discriminate.
  - apply (proj1 (proj2 (proj2 indicator_invariant_preserved))).
    + intros _. vm_compute. discriminate.
    + intros indicatie Hlookup.
      rewrite lookup_singleton_eq in Hlookup. injection Hlookup as <-. reflexivity.
Defined.

(** ** Immutable fields of a relation *)

Section Relation.

Variable field_errors : string -> value -> list string.
Variable url_errors : value -> list string.
Variable class_errors : option ObjectInformatieObject -> gmap string value -> list string.







End Relation.



(** ** The lock token *)

Section Token.

Local Open Scope Z_scope.

(** A non-negative integer of at most 128 bits is its own low 128 bits. *)
Lemma fits_128_iff x : 0 <= x < 2 ^ 128 <-> Z.land x (Z.ones 128) = x.
Proof.
  rewrite Z.land_ones by lia. split.
  - intros Hx. by apply Z.mod_small.
  - intros <-. apply Z.mod_pos_bound. lia.
Qed.

Lemma fits_128_land x y : 0 <= x < 2 ^ 128 -> 0 <= Z.land x y < 2 ^ 128.
Proof.
  rewrite !fits_128_iff. intros Hx.
  rewrite <- Z.land_assoc, (Z.land_comm y), Z.land_assoc. by rewrite Hx.
Qed.

Lemma fits_128_lor x y :
  0 <= x < 2 ^ 128 -> 0 <= y < 2 ^ 128 -> 0 <= Z.lor x y < 2 ^ 128.
Proof.
  rewrite !fits_128_iff. intros Hx Hy.
  rewrite Z.land_lor_distr_l. by rewrite Hx, Hy.
Qed.

Lemma fold_bytes_bound (bytes : list Byte.byte) (acc : Z) :
  0 <= acc ->
  0 <= fold_left (fun acc b => acc * 256 + Z.of_N (Byte.to_N b)) bytes acc
    < (acc + 1) * 256 ^ Z.of_nat (length bytes).
Proof.
  revert acc. induction bytes as [| b bytes IH]; intros acc Hacc.
  - simpl. lia.
  - pose proof (Byte.to_N_bounded b) as Hb.
    cbn [fold_left length].
    specialize (IH (acc * 256 + Z.of_N (Byte.to_N b)) ltac:(lia)).
    rewrite Nat2Z.inj_succ, Z.pow_succ_r by lia.
    assert (0 < 256 ^ Z.of_nat (length bytes)) by (apply Z.pow_pos_nonneg; lia).
    nia.
Qed.

Lemma int_from_bytes_16 (bytes : list Byte.byte) :
  length bytes = 16%nat -> 0 <= uuid.int_from_bytes bytes < 2 ^ 128.
Proof.
  intros Hlen. unfold uuid.int_from_bytes.
  pose proof (fold_bytes_bound bytes 0 ltac:(lia)) as Hb.
  rewrite Hlen in Hb. change ((0 + 1) * 256 ^ Z.of_nat 16) with (2 ^ 128) in Hb.
  exact Hb.
Qed.

(** The integer of a version-4 UUID built from sixteen bytes has 128 bits. *)
Lemma uuid4_range (urandom : list Byte.byte) :
  length urandom = 16%nat -> 0 <= uuid.uuid4 urandom < 2 ^ 128.
Proof.
  intros Hlen. unfold uuid.uuid4, uuid.UUID.
  apply fits_128_lor; [| by vm_compute].
  apply fits_128_land, fits_128_lor; [| by vm_compute].
  apply fits_128_land. by apply int_from_bytes_16.
Qed.

Lemma hexdigit_in (d : Z) :
  0 <= d < 16 ->
  In (uuid.hexdigit d) (list_ascii_of_string "0123456789abcdef").
Proof.
  intros Hd. unfold uuid.hexdigit. apply nth_In.
  change (length (list_ascii_of_string "0123456789abcdef")) with 16%nat. lia.
Qed.

Lemma hexdigit_inj (d1 d2 : Z) :
  0 <= d1 < 16 -> 0 <= d2 < 16 ->
  uuid.hexdigit d1 = uuid.hexdigit d2 -> d1 = d2.
Proof.
  intros H1 H2. unfold uuid.hexdigit.
  rewrite <- (Z2Nat.id d1), <- (Z2Nat.id d2) by lia.
  assert (Z.to_nat d1 < 16)%nat as Hn1 by lia.
  assert (Z.to_nat d2 < 16)%nat as Hn2 by lia.
  revert Hn1 Hn2. generalize (Z.to_nat d1) (Z.to_nat d2). clear.
  intros n1 n2 Hn1 Hn2. rewrite !Nat2Z.id.
  do 16 (destruct n1 as [| n1];
         [ do 16 (destruct n2 as [| n2];
                  [ simpl; intros Heq; first [reflexivity | discriminate Heq] |]);
           lia |]).
  lia.
Qed.

(** Two integers with the same [n] low hexadecimal digits agree modulo
    [16 ^ n]. *)
Lemma digits_determine (n : nat) (a b : Z) :
  (forall j, (j < n)%nat ->
     (a / 16 ^ Z.of_nat j) mod 16 = (b / 16 ^ Z.of_nat j) mod 16) ->
  a mod 16 ^ Z.of_nat n = b mod 16 ^ Z.of_nat n.
Proof.
  induction n as [| n IH]; intros Hdigits.
  - by rewrite !Z.mod_1_r.
  - rewrite Nat2Z.inj_succ, Z.pow_succ_r, Z.mul_comm by lia.
    assert (0 < 16 ^ Z.of_nat n) by (apply Z.pow_pos_nonneg; lia).
    rewrite !Z.rem_mul_r by lia.
    rewrite IH by (intros j Hj; apply Hdigits; lia).
    by rewrite (Hdigits n) by lia.
Qed.

(** The hexadecimal form tells 128-bit integers apart. *)
Lemma hex_inj (a b : Z) :
  0 <= a < 2 ^ 128 -> 0 <= b < 2 ^ 128 -> uuid.hex a = uuid.hex b -> a = b.
Proof.
  intros Ha Hb Heq. unfold uuid.hex in Heq.
  apply (f_equal list_ascii_of_string) in Heq.
  rewrite !list_ascii_of_string_of_list_ascii in Heq.
  assert (a mod 16 ^ Z.of_nat 32 = b mod 16 ^ Z.of_nat 32) as Hmod.
  { apply digits_determine. intros j Hj.
    pose proof (ext_in_map Heq (31 - j)%nat) as Hd. cbv beta in Hd.
    replace (31 - (31 - j))%nat with j in Hd by lia.
    apply hexdigit_inj.
    - apply Z.mod_pos_bound. lia.
    - apply Z.mod_pos_bound. lia.
    - apply Hd, in_seq. lia. }
  change (16 ^ Z.of_nat 32) with (2 ^ 128) in Hmod.
  by rewrite !Z.mod_small in Hmod.
Qed.

(** Setting the variant and the version leaves the other bits of the random
    bytes as they were drawn. *)
Lemma uuid4_random_bits (urandom : list Byte.byte) :
  Z.land (uuid.uuid4 urandom) random_bits
  = Z.land (uuid.int_from_bytes urandom) random_bits.
Proof.
  unfold uuid.uuid4, uuid.UUID.
  generalize (uuid.int_from_bytes urandom). intros x.
  rewrite Z.land_lor_distr_l.
  replace (Z.land (Z.shiftl 4 76) random_bits) with 0 by (vm_compute; reflexivity).
  rewrite Z.lor_0_r, <- Z.land_assoc.
  replace (Z.land (Z.lnot (Z.shiftl 0xf000 64)) random_bits) with random_bits
    by (vm_compute; reflexivity).
  rewrite Z.land_lor_distr_l.
  replace (Z.land (Z.shiftl 0x8000 48) random_bits) with 0 by (vm_compute; reflexivity).
  rewrite Z.lor_0_r, <- Z.land_assoc.
  replace (Z.land (Z.lnot (Z.shiftl 0xc000 48)) random_bits) with random_bits
    by (vm_compute; reflexivity).
  reflexivity.
Qed.

End Token.

Lemma string_of_list_ascii_length (l : list ascii) :
  String.length (string_of_list_ascii l) = length l.
Proof. induction l as [| c l IH]; simpl; congruence. Qed.

Lemma hex_length (int : Z) : String.length (uuid.hex int) = 32.
Proof.
  unfold uuid.hex. rewrite string_of_list_ascii_length.
  by rewrite length_map, length_seq.
Qed.

Lemma hex_digits (int : Z) :
  Forall (fun c => In c (list_ascii_of_string "0123456789abcdef"))
    (list_ascii_of_string (uuid.hex int)).
Proof.
  unfold uuid.hex. rewrite list_ascii_of_string_of_list_ascii.
  apply Forall_map, Forall_forall. intros k _.
  apply hexdigit_in, Z.mod_pos_bound. lia.
Qed.

Lemma hex_nonempty (int : Z) : uuid.hex int <> "".
Proof.
  intros Heq. pose proof (hex_length int) as Hlen.
  rewrite Heq in Hlen. discriminate.
Qed.

(** *** From the token back to the bytes *)

Section Bytes.

Local Open Scope Z_scope.

Lemma fold_bytes_acc (bytes : list Byte.byte) (acc : Z) :
  fold_left (fun acc b => acc * 256 + Z.of_N (Byte.to_N b)) bytes acc
  = acc * 256 ^ Z.of_nat (length bytes) + uuid.int_from_bytes bytes.
Proof.
  unfold uuid.int_from_bytes. revert acc.
  induction bytes as [| b bytes IH]; intros acc.
  - simpl. lia.
  - cbn [fold_left length].
    rewrite IH, (IH (0 * 256 + _)).
    rewrite Nat2Z.inj_succ, Z.pow_succ_r by lia. ring.
Qed.

(** The integer of a byte string is its first byte, shifted, plus the
    integer of the rest. *)
Lemma int_from_bytes_cons (b : Byte.byte) (bytes : list Byte.byte) :
  uuid.int_from_bytes (b :: bytes)
  = Z.of_N (Byte.to_N b) * 2 ^ (8 * Z.of_nat (length bytes))
    + uuid.int_from_bytes bytes.
Proof.
  unfold uuid.int_from_bytes at 1. cbn [fold_left].
  rewrite fold_bytes_acc. rewrite Z.pow_mul_r by lia.
  change (2 ^ 8) with 256. lia.
Qed.

Lemma int_from_bytes_bound (bytes : list Byte.byte) :
  0 <= uuid.int_from_bytes bytes < 2 ^ (8 * Z.of_nat (length bytes)).
Proof.
  pose proof (fold_bytes_bound bytes 0 ltac:(lia)) as Hb.
  unfold uuid.int_from_bytes. rewrite Z.pow_mul_r by lia.
  change (2 ^ 8) with 256. lia.
Qed.

Lemma testbit_high (a r k p : Z) :
  0 <= k -> 0 <= p -> 0 <= r < 2 ^ k ->
  Z.testbit (a * 2 ^ k + r) (k + p) = Z.testbit a p.
Proof.
  intros Hk Hp Hr.
  rewrite (Z.add_comm k p), <- Z.div_pow2_bits by lia.
  rewrite Z.div_add_l by lia. rewrite (Z.div_small r) by lia.
  by rewrite Z.add_0_r.
Qed.

Lemma testbit_low (a r k q : Z) :
  0 <= q < k -> 0 <= r < 2 ^ k ->
  Z.testbit (a * 2 ^ k + r) q = Z.testbit r q.
Proof.
  intros Hq Hr.
  rewrite <- (Z.mod_pow2_bits_low (a * 2 ^ k + r) k q) by lia.
  rewrite Z.add_comm, Z.mod_add by lia.
  by rewrite Z.mod_small by lia.
Qed.

(** Bit [p] of byte [i] of a byte string is bit [8 * (length - 1 - i) + p] of
    its integer. *)
Lemma int_from_bytes_testbit (bytes : list Byte.byte) (i : nat) (b : Byte.byte) (p : Z) :
  bytes !! i = Some b -> 0 <= p < 8 ->
  Z.testbit (uuid.int_from_bytes bytes) (8 * Z.of_nat (length bytes - 1 - i) + p)
  = Z.testbit (Z.of_N (Byte.to_N b)) p.
Proof.
  revert i. induction bytes as [| b0 bytes IH]; intros i Hlookup Hp; [done |].
  rewrite int_from_bytes_cons.
  pose proof (int_from_bytes_bound bytes) as Hbound.
  destruct i as [| i]; simpl in Hlookup.
  - injection Hlookup as ->.
    replace (length (b :: bytes) - 1 - 0)%nat with (length bytes) by (simpl; lia).
    apply testbit_high; lia.
  - pose proof (lookup_lt_Some _ _ _ Hlookup) as Hlt.
    replace (length (b0 :: bytes) - 1 - S i)%nat with (length bytes - 1 - i)%nat
      by (simpl; lia).
    rewrite testbit_low by lia. by apply IH.
Qed.

(** Every bit of the draw that is not overwritten is a random bit. *)
Lemma random_bits_testbit (i : nat) (p : Z) :
  (i < 16)%nat -> 0 <= p < 8 -> ~ overwritten i p ->
  Z.testbit random_bits (8 * Z.of_nat (16 - 1 - i) + p) = true.
Proof.
  intros Hi Hp Hfree. unfold overwritten in Hfree.
  rewrite <- (Z2Nat.id p) in * by lia.
  assert (Z.to_nat p < 8)%nat as Hk by lia.
  revert Hk Hfree. generalize (Z.to_nat p). clear Hp. intros k Hk Hfree.
  do 16 (destruct i as [| i];
         [ do 8 (destruct k as [| k];
                 [ first [ reflexivity | exfalso; apply Hfree; simpl; lia ] |]);
           lia |]).
  lia.
Qed.

Lemma low_bits_eq (k x y : Z) :
  0 <= k ->
  (forall p, 0 <= p < k -> Z.testbit x p = Z.testbit y p) ->
  x mod 2 ^ k = y mod 2 ^ k.
Proof.
  intros Hk Hbits. apply Z.bits_inj'. intros n Hn.
  destruct (Z.lt_ge_cases n k).
  - rewrite !Z.mod_pow2_bits_low by lia. apply Hbits. lia.
  - by rewrite !Z.mod_pow2_bits_high by lia.
Qed.

Lemma byte_of_low_bits (b b' : Byte.byte) :
  Z.of_N (Byte.to_N b') mod 2 ^ 8 = Z.of_N (Byte.to_N b) mod 2 ^ 8 -> b' = b.
Proof.
  pose proof (Byte.to_N_bounded b). pose proof (Byte.to_N_bounded b').
  rewrite !Z.mod_small by (change (2 ^ 8) with 256; lia).
  intros Heq. apply N2Z.inj in Heq.
  pose proof (Byte.of_to_N b) as Hb. pose proof (Byte.of_to_N b') as Hb'.
  rewrite Heq in Hb'. congruence.
Qed.

(** Two draws of sixteen bytes that give the same token have the same bits
    wherever [UUID(version=4)] does not overwrite them. *)
Lemma same_token_same_bits (urandom urandom' : list Byte.byte)
    (i : nat) (b b' : Byte.byte) (p : Z) :
  length urandom = 16%nat -> length urandom' = 16%nat ->
  uuid.hex (uuid.uuid4 urandom') = uuid.hex (uuid.uuid4 urandom) ->
  urandom !! i = Some b -> urandom' !! i = Some b' ->
  0 <= p < 8 -> ~ overwritten i p ->
  Z.testbit (Z.of_N (Byte.to_N b')) p = Z.testbit (Z.of_N (Byte.to_N b)) p.
Proof.
  intros Hlen Hlen' Hsame Hb Hb' Hp Hfree.
  apply hex_inj in Hsame; try by apply uuid4_range.
  assert (Z.land (uuid.int_from_bytes urandom') random_bits
          = Z.land (uuid.int_from_bytes urandom) random_bits) as Hmasked
    by (by rewrite <- !uuid4_random_bits, Hsame).
  pose proof (lookup_lt_Some _ _ _ Hb) as Hi. rewrite Hlen in Hi.
  pose proof (f_equal (fun z => Z.testbit z (8 * Z.of_nat (16 - 1 - i) + p)) Hmasked)
    as Hbit. cbv beta in Hbit.
  rewrite !Z.land_spec, random_bits_testbit, !andb_true_r in Hbit by done.
  rewrite <- (int_from_bytes_testbit urandom i b p Hb Hp).
  rewrite <- (int_from_bytes_testbit urandom' i b' p Hb' Hp).
  by rewrite Hlen, Hlen'.
Qed.

End Bytes.

(** C6. [Acquire] fails with [AlreadyLocked] when the object holds a
    non-empty lock. When the stored lock is empty it succeeds: the token is
    the hexadecimal form of a version-4 UUID drawn from sixteen bytes of the
    operating system's randomness, a 128-bit integer written as 32 lowercase
    hexadecimal digits and hence non-empty; the returned instance is the
    stored one with that token as its lock and every other attribute as
    before. The token depends on the random bytes alone and keeps all of
    them but the six bits of version and variant: another draw of sixteen
    bytes yields the same token only when it has the same bytes everywhere
    but at the seventh and the ninth, the same low nibble in the seventh and
    the same low six bits in the ninth. *)
Theorem acquire_spec (inst : EnkelvoudigInformatieObject) (urandom : list Byte.byte) :
  (truthy (getattr inst "lock") = true ->
     Acquire inst urandom = Raise AlreadyLocked) /\
  (truthy (getattr inst "lock") = false ->
     length urandom = 16 ->
     let token := uuid.hex (uuid.uuid4 urandom) in
     exists inst',
       Acquire inst urandom = Ok inst' /\
       getattr inst' "lock" = VStr token /\
       (forall name, name <> "lock" -> getattr inst' name = getattr inst name) /\
       gebruiksrechten_set inst' = gebruiksrechten_set inst /\
       (0 <= uuid.uuid4 urandom < 2 ^ 128)%Z /\
       String.length token = 32 /\
       Forall (fun c => In c (list_ascii_of_string "0123456789abcdef"))
         (list_ascii_of_string token) /\
       truthy (VStr token) = true /\
       (forall urandom',
          length urandom' = 16 ->
          uuid.hex (uuid.uuid4 urandom') = token ->
          Z.land (uuid.int_from_bytes urandom') random_bits
          = Z.land (uuid.int_from_bytes urandom) random_bits) /\
       (forall urandom' i b b',
          length urandom' = 16 ->
          uuid.hex (uuid.uuid4 urandom') = token ->
          urandom !! i = Some b -> urandom' !! i = Some b' ->
          (i <> 6 -> i <> 8 -> b' = b) /\
          (i = 6 -> (Z.of_N (Byte.to_N b') mod 16 = Z.of_N (Byte.to_N b) mod 16)%Z) /\
          (i = 8 -> (Z.of_N (Byte.to_N b') mod 64 = Z.of_N (Byte.to_N b) mod 64)%Z))).
Proof.
  unfold Acquire, LockEIO.validate, ModelSerializer.validate. split.
  - intros ->. reflexivity.
  - intros -> Hlen. unfold bind.
    exists (LockEIO.save inst urandom). unfold LockEIO.save.
    split; [reflexivity |].
    split; [apply getattr_setattr_eq |].
    split; [intros name Hname; by apply getattr_setattr_ne |].
    split; [reflexivity |].
    split; [by apply uuid4_range |].
    split; [apply hex_length |].
    split; [apply hex_digits |].
    split; [apply truthy_VStr; apply hex_nonempty |].
    split.
    + intros urandom' Hlen' Hsame.
      apply hex_inj in Hsame; try by apply uuid4_range.
      by rewrite <- !uuid4_random_bits, Hsame.
    + intros urandom' i b b' Hlen' Hsame Hb Hb'.
      pose proof (fun p Hp Hfree =>
                    same_token_same_bits urandom urandom' i b b' p
                      Hlen Hlen' Hsame Hb Hb' Hp Hfree) as Hbits.
      split; [| split].
      * intros H6 H8. apply byte_of_low_bits, low_bits_eq; [lia |].
        intros p Hp. apply Hbits; [exact Hp |].
        unfold overwritten. lia.
      * intros ->. apply (low_bits_eq 4); [lia |].
        intros p Hp. apply Hbits; [lia |]. unfold overwritten. lia.
      * intros ->. apply (low_bits_eq 6); [lia |].
        intros p Hp. apply Hbits; [lia |]. unfold overwritten. lia.
Qed.

Lemma acquire_spec_witness :
  Acquire Examples.locked_doc Examples.urandom = Raise AlreadyLocked /\
  (exists inst',
     Acquire Examples.unlocked_doc Examples.urandom = Ok inst' /\
     getattr inst' "lock" = VStr "0f60f6d2d2714c809ed762372f5a363a") /\
  uuid.hex (uuid.uuid4 (Byte.x1f :: tail Examples.urandom))
  <> uuid.hex (uuid.uuid4 Examples.urandom).
Proof.
  split; [| split].
  - apply (proj1 (acquire_spec Examples.locked_doc Examples.urandom)).
    vm_compute. reflexivity.
  - destruct (proj2 (acquire_spec Examples.unlocked_doc Examples.urandom))
      as (inst' & Hok & Hlock & _).
    + vm_compute. reflexivity.
    + reflexivity.
    + exists inst'. split; [exact Hok |]. rewrite Hlock. vm_compute. reflexivity.
  - intros Hsame.
    destruct (proj2 (acquire_spec Examples.unlocked_doc Examples.urandom))
      as (inst' & _ & _ & _ & _ & _ & _ & _ & _ & _ & Hbytes).
    + vm_compute. reflexivity.
    + reflexivity.
    + destruct (Hbytes (Byte.x1f :: tail Examples.urandom) 0 Byte.x0f Byte.x1f
                  eq_refl Hsame eq_refl eq_refl) as (Hbyte & _).
      specialize (Hbyte ltac:(discriminate) ltac:(discriminate)). discriminate Hbyte.
Defined.

(** * Further properties *)

(** ** The lock protocol, step by step *)

Lemma lock_save_lock (inst : EnkelvoudigInformatieObject) urandom :
  getattr (LockEIO.save inst urandom) "lock" = VStr (uuid.hex (uuid.uuid4 urandom)).
Proof. apply getattr_setattr_eq. Qed.

Lemma lock_save_truthy (inst : EnkelvoudigInformatieObject) urandom :
  truthy (getattr (LockEIO.save inst urandom) "lock") = true.
Proof. rewrite lock_save_lock. apply truthy_VStr. apply hex_nonempty. Qed.

(** X1. Once the lock serializer has saved a document, an update of it is
    validated exactly when the attributes carry the token that was stored:
    with that token the attributes pass, with any other lock value or none
    the update fails with [LockMismatch], and never with [Unlocked]. *)
Theorem update_after_lock (inst : EnkelvoudigInformatieObject)
    (urandom : list Byte.byte) (attrs : gmap string value) :
  EIO.validate (Some (LockEIO.save inst urandom)) attrs =
  if bool_decide (attrs !! "lock" = Some (VStr (uuid.hex (uuid.uuid4 urandom))))
  then Ok attrs
  else Raise LockMismatch.
Proof.
  unfold EIO.validate, ModelSerializer.validate.
  rewrite lock_save_truthy, lock_save_lock. simpl.
  case_bool_decide as Hlock.
  - unfold get. rewrite Hlock. simpl.
    by rewrite (proj2 (ne_false_iff _ _) eq_refl).
  - replace (ne _ _) with true; [reflexivity |].
    symmetry. apply ne_true_iff. unfold get. intros Heq.
    destruct (attrs !! "lock") as [v |] eqn:Hv; simpl in Heq.
    + by subst v.
    + injection Heq as Heq. symmetry in Heq. by apply hex_nonempty in Heq.
Qed.

(** X2. A document that was locked successfully cannot be locked again:
    whatever random bytes the second attempt draws, it fails with
    [AlreadyLocked]. *)
Theorem acquire_twice_rejected (inst inst' : EnkelvoudigInformatieObject)
    (urandom urandom' : list Byte.byte) :
  Acquire inst urandom = Ok inst' ->
  Acquire inst' urandom' = Raise AlreadyLocked.
Proof.
  unfold Acquire, LockEIO.validate, ModelSerializer.validate.
  destruct (truthy (getattr inst "lock")); [discriminate |].
  simpl. intros [= <-]. by rewrite lock_save_truthy.
Qed.

Lemma acquire_twice_rejected_witness :
  Acquire (LockEIO.save Examples.unlocked_doc Examples.urandom) Examples.urandom
  = Raise AlreadyLocked.
Proof.
  apply (acquire_twice_rejected Examples.unlocked_doc _ Examples.urandom).
  vm_compute. reflexivity.
Defined.

(** X3. After the unlock serializer has saved a document, every update of it
    fails with [Unlocked], whatever the attributes (the old token included),
    and the lock serializer accepts it again. *)
Theorem after_unlock_save (inst : EnkelvoudigInformatieObject)
    (attrs : gmap string value) :
  EIO.validate (Some (UnlockEIO.save inst)) attrs = Raise Unlocked /\
  LockEIO.validate (UnlockEIO.save inst) attrs = Ok attrs.
Proof.
  unfold EIO.validate, LockEIO.validate, ModelSerializer.validate.
  by rewrite getattr_unlock_save.
Qed.

(** X4. Lock and unlock are a round trip: on a document whose stored lock is
    the empty string, [Acquire] followed by [Release] with the token that was
    handed out (and no force) gives back exactly the document as it was. *)
Theorem acquire_release_round_trip (inst inst' : EnkelvoudigInformatieObject)
    (urandom : list Byte.byte) :
  attributes inst !! "lock" = Some (VStr "") ->
  Acquire inst urandom = Ok inst' ->
  Release inst' {[ "lock" := getattr inst' "lock" ]} false = Ok inst.
Proof.
  intros Hstored. unfold Acquire, LockEIO.validate, ModelSerializer.validate.
  destruct (truthy (getattr inst "lock")); [discriminate |].
  simpl. intros [= <-].
  unfold Release. rewrite unlock_validate_no_force.
  unfold get. rewrite lookup_singleton_eq. simpl.
  rewrite (proj2 (ne_false_iff _ _) eq_refl). simpl. f_equal.
  unfold UnlockEIO.save, LockEIO.save, setattr. simpl.
  rewrite insert_insert_eq, insert_id by done.
  by destruct inst.
Qed.

Lemma acquire_release_round_trip_witness :
  Release (LockEIO.save Examples.unlocked_doc Examples.urandom)
    {[ "lock" := getattr (LockEIO.save Examples.unlocked_doc Examples.urandom) "lock" ]}
    false
  = Ok Examples.unlocked_doc.
Proof.
  apply (acquire_release_round_trip Examples.unlocked_doc _ Examples.urandom).
  - vm_compute. reflexivity.
  - vm_compute. reflexivity.
Defined.

(** X5. An update whose attributes pass [validate] cannot unlock the document
    or change its token: after [update] the stored lock is the one that was
    stored before, and it is not empty. *)
Theorem validated_update_keeps_lock (inst : EnkelvoudigInformatieObject)
    (attrs validated_data : gmap string value) :
  EIO.validate (Some inst) attrs = Ok validated_data ->
  validated_data = attrs /\
  getattr (EIO.update inst validated_data) "lock" = getattr inst "lock" /\
  truthy (getattr (EIO.update inst validated_data) "lock") = true.
Proof.
  unfold EIO.validate, ModelSerializer.validate.
  destruct (truthy (getattr inst "lock")) eqn:Hlocked; [| discriminate].
  simpl.
  destruct (ne (get attrs "lock" (VStr "")) (getattr inst "lock")) eqn:Hne;
    [discriminate |].
  intros [= <-]. apply ne_false_iff in Hne.
  assert (getattr (EIO.update inst attrs) "lock" = getattr inst "lock") as Hkept.
  { rewrite update_flat_attribute by done.
    unfold get in Hne. destruct (attrs !! "lock") as [v |]; simpl in *; [done |].
    reflexivity. }
  by rewrite Hkept.
Qed.

Lemma validated_update_keeps_lock_witness :
  let attrs : gmap string value :=
    {[ "lock" := VStr "0f60f6d2d2714c809ed762372f5a363a"; "titel" := VStr "changed" ]} in
  attrs = attrs /\
  getattr (EIO.update Examples.locked_doc attrs) "lock"
  = getattr Examples.locked_doc "lock" /\
  truthy (getattr (EIO.update Examples.locked_doc attrs) "lock") = true.
Proof.
  apply (validated_update_keeps_lock Examples.locked_doc).
  vm_compute. reflexivity.
Defined.

(** X6. An update that supplies no lock, or an empty one, is never
    validated: it fails with [Unlocked] when the stored lock is empty and with
    [LockMismatch] otherwise. *)
Theorem update_without_token_rejected (inst : EnkelvoudigInformatieObject)
    (attrs : gmap string value) :
  attrs !! "lock" = None \/ attrs !! "lock" = Some (VStr "") ->
  EIO.validate (Some inst) attrs =
  if truthy (getattr inst "lock") then Raise LockMismatch else Raise Unlocked.
Proof.
  intros Hlock.
  assert (get attrs "lock" (VStr "") = VStr "") as Hget.
  { unfold get. by destruct Hlock as [-> | ->]. }
  unfold EIO.validate, ModelSerializer.validate. rewrite Hget.
  destruct (truthy (getattr inst "lock")) eqn:Hlocked; [| reflexivity].
  simpl. replace (ne _ _) with true; [reflexivity |].
  symmetry. apply ne_true_iff. intros Heq. rewrite <- Heq in Hlocked. discriminate.
Qed.

Lemma update_without_token_rejected_witness :
  EIO.validate (Some Examples.locked_doc) {[ "titel" := VStr "changed" ]}
  = Raise LockMismatch.
Proof.
  apply (update_without_token_rejected Examples.locked_doc).
  left. vm_compute. reflexivity.
Defined.

(** X7. Without force, a release that supplies no token succeeds exactly on a
    document whose stored lock is the empty string; on any other it fails with
    [LockMismatch]. *)
Theorem release_without_token (inst : EnkelvoudigInformatieObject)
    (attrs : gmap string value) :
  attrs !! "lock" = None ->
  (getattr inst "lock" = VStr "" ->
     Release inst attrs false = Ok (UnlockEIO.save inst)) /\
  (getattr inst "lock" <> VStr "" ->
     Release inst attrs false = Raise LockMismatch).
Proof.
  intros Habsent. unfold Release. rewrite unlock_validate_no_force.
  unfold get. rewrite Habsent. simpl. split.
  - intros ->. reflexivity.
  - intros Hne. replace (ne _ _) with true; [reflexivity |].
    symmetry. apply ne_true_iff. congruence.
Qed.

Lemma release_without_token_witness :
  Release Examples.locked_doc ∅ false = Raise LockMismatch.
Proof.
  apply (release_without_token Examples.locked_doc ∅).
  - vm_compute. reflexivity.
  - vm_compute. discriminate.
Defined.

(** ** Writes, in general *)

(** X8. [update] writes every attribute that the validated data names and no
    other, the two nested groups apart: an attribute outside them takes the
    supplied value when there is one and keeps its stored value otherwise,
    and the usage-rights rows are left alone. *)
Theorem update_writes_what_is_supplied (inst : EnkelvoudigInformatieObject)
    (validated_data : gmap string value) (name : string) :
  name <> "integriteit" -> name <> "ondertekening" ->
  (forall v, validated_data !! name = Some v ->
     getattr (EIO.update inst validated_data) name = v) /\
  (validated_data !! name = None ->
     getattr (EIO.update inst validated_data) name = getattr inst name) /\
  gebruiksrechten_set (EIO.update inst validated_data) = gebruiksrechten_set inst.
Proof.
  intros Hi Ho. rewrite update_flat_attribute by done. repeat split.
  - by intros v ->.
  - by intros ->.
  - apply update_related.
Qed.

Lemma update_writes_what_is_supplied_witness :
  (forall v, ({[ "titel" := VStr "changed" ]} : gmap string value) !! "titel" = Some v ->
     getattr (EIO.update Examples.locked_doc {[ "titel" := VStr "changed" ]}) "titel" = v) /\
  (({[ "titel" := VStr "changed" ]} : gmap string value) !! "titel" = None ->
     getattr (EIO.update Examples.locked_doc {[ "titel" := VStr "changed" ]}) "titel"
     = getattr Examples.locked_doc "titel") /\
  gebruiksrechten_set (EIO.update Examples.locked_doc {[ "titel" := VStr "changed" ]})
  = gebruiksrechten_set Examples.locked_doc.
Proof.
  apply (update_writes_what_is_supplied Examples.locked_doc
           {[ "titel" := VStr "changed" ]} "titel"); discriminate.
Defined.

(** X9. For every document and every validated data, the integrity and
    signature groups after [update] are those of the validated data, and
    [None] when it does not name them: what was stored before has no
    influence on them. *)
Theorem update_nested_groups_from_payload (inst inst' : EnkelvoudigInformatieObject)
    (validated_data : gmap string value) :
  getattr (EIO.update inst validated_data) "integriteit"
    = get validated_data "integriteit" VNone /\
  getattr (EIO.update inst validated_data) "ondertekening"
    = get validated_data "ondertekening" VNone /\
  getattr (EIO.update inst validated_data) "integriteit"
    = getattr (EIO.update inst' validated_data) "integriteit" /\
  getattr (EIO.update inst validated_data) "ondertekening"
    = getattr (EIO.update inst' validated_data) "ondertekening".
Proof.
  rewrite !update_nested_group by auto. by unfold get.
Qed.

Lemma update_eq (inst inst' : EnkelvoudigInformatieObject) :
  attributes inst = attributes inst' -> related inst = related inst' -> inst = inst'.
Proof. destruct inst, inst'. simpl. by intros -> ->. Qed.

Lemma update_with_dictionary_spec (inst : EnkelvoudigInformatieObject)
    (validated_data : gmap string value) :
  update_with_dictionary inst validated_data
  = (EIO.update inst validated_data,
     delete "ondertekening" (delete "integriteit" validated_data)).
Proof. reflexivity. Qed.

(** X10. [update] takes the nested groups out of the dictionary it is given.
    A second call with that same dictionary therefore empties both groups,
    also those that the first call stored from it; every other attribute is
    as after the first call, the dictionary loses nothing more, and any
    further call with it changes nothing. *)
Theorem update_twice_same_dictionary (inst : EnkelvoudigInformatieObject)
    (validated_data : gmap string value) :
  let first := update_with_dictionary inst validated_data in
  let second := update_with_dictionary first.1 first.2 in
  first.1 = EIO.update inst validated_data /\
  getattr first.1 "integriteit" = get validated_data "integriteit" VNone /\
  getattr first.1 "ondertekening" = get validated_data "ondertekening" VNone /\
  first.2 !! "integriteit" = None /\ first.2 !! "ondertekening" = None /\
  getattr second.1 "integriteit" = VNone /\
  getattr second.1 "ondertekening" = VNone /\
  (forall name, name <> "integriteit" -> name <> "ondertekening" ->
                getattr second.1 name = getattr first.1 name) /\
  second.2 = first.2 /\
  update_with_dictionary second.1 second.2 = second.
Proof.
  intros first second. subst first second.
  rewrite !update_with_dictionary_spec. cbn [fst snd].
  set (rest := delete "ondertekening" (delete "integriteit" validated_data)).
  assert (rest !! "integriteit" = None) as Hi
    by (subst rest; by rewrite lookup_delete_ne, lookup_delete_eq).
  assert (rest !! "ondertekening" = None) as Ho
    by (subst rest; by rewrite lookup_delete_eq).
  assert (delete "ondertekening" (delete "integriteit" rest) = rest) as Hrest.
  { rewrite (delete_id rest "integriteit") by done. by apply delete_id. }
  split; [reflexivity |].
  split; [by rewrite update_nested_group by auto |].
  split; [by rewrite update_nested_group by auto |].
  split; [exact Hi |]. split; [exact Ho |].
  split; [by rewrite update_nested_group, Hi by auto |].
  split; [by rewrite update_nested_group, Ho by auto |].
  split.
  { intros name Hni Hno. rewrite !update_flat_attribute by done.
    subst rest. rewrite lookup_after_pops by done.
    by destruct (validated_data !! name). }
  split; [exact Hrest |].
  rewrite !Hrest. f_equal.
  apply update_eq.
  - apply map_eq. intros name. rewrite !update_attributes.
    rewrite Hi, Ho.
    repeat case_bool_decide; try reflexivity.
    by destruct (rest !! name).
  - by rewrite !update_related.
Qed.

Lemma update_twice_same_dictionary_witness :
  let validated_data : gmap string value :=
    {[ "lock" := VStr "0f60f6d2d2714c809ed762372f5a363a";
       "integriteit" := VGroup [("algoritme", "sha_256"); ("waarde", "9f86d081884c7d65");
                                ("datum", "2019-07-01")] ]} in
  let first := update_with_dictionary Examples.locked_doc validated_data in
  let second := update_with_dictionary first.1 first.2 in
  getattr first.1 "integriteit"
  = VGroup [("algoritme", "sha_256"); ("waarde", "9f86d081884c7d65");
            ("datum", "2019-07-01")] /\
  getattr second.1 "integriteit" = VNone /\
  getattr second.1 "lock" = getattr first.1 "lock".
Proof.
  intros validated_data first second.
  destruct (update_twice_same_dictionary Examples.locked_doc validated_data)
    as (_ & Hfirst & _ & _ & _ & Hsecond & _ & Hflat & _).
  split; [| split].
  - subst first. rewrite Hfirst. vm_compute. reflexivity.
  - exact Hsecond.
  - apply Hflat; discriminate.
Defined.

(** ** Create, in general *)

(** X11. A successful create stores the validated data as it is: the nested
    groups are the supplied ones, [None] when absent, every other attribute
    but the classification is the supplied one, and no usage-rights row
    points at the new object. *)
Theorem create_stores_validated_data
    (request : value -> result (gmap string value))
    (self self' : EIO.Self) (requests requests' : list value)
    (validated_data : gmap string value) (eio : EnkelvoudigInformatieObject) :
  EIO.create request self requests validated_data = Ok (eio, self', requests') ->
  getattr eio "integriteit" = get validated_data "integriteit" VNone /\
  getattr eio "ondertekening" = get validated_data "ondertekening" VNone /\
  (forall name,
     name <> "integriteit" -> name <> "ondertekening" ->
     name <> "vertrouwelijkheidaanduiding" ->
     attributes eio !! name = validated_data !! name) /\
  gebruiksrechten_set eio = [].
Proof.
  intros Hcreate.
  destruct (create_row _ _ _ _ _ _ _ Hcreate) as [Hrel Hflat].
  split; [| split; [| split]]; [| | exact Hflat | exact Hrel].
  - revert Hcreate. unfold EIO.create, pop.
    destruct (match _ !! "vertrouwelijkheidaanduiding" with
              | Some _ => _ | None => _ end) as [[[vd s1] r1] | e];
      [| discriminate].
    simpl. intros [= <- _ _]. unfold getattr, get. simpl.
    by rewrite lookup_insert_ne, lookup_insert_eq.
  - revert Hcreate. unfold EIO.create, pop.
    destruct (match _ !! "vertrouwelijkheidaanduiding" with
              | Some _ => _ | None => _ end) as [[[vd s1] r1] | e];
      [| discriminate].
    simpl. intros [= <- _ _]. unfold getattr, get. simpl.
    rewrite lookup_insert_eq. by rewrite lookup_delete_ne.
Qed.

Lemma create_stores_validated_data_witness :
  let validated_data : gmap string value :=
    {[ "vertrouwelijkheidaanduiding" := VStr "geheim";
       "ondertekening" := VGroup [("soort", "digitaal"); ("datum", "2018-12-13")] ]} in
  exists eio,
    EIO.create Examples.request Examples.fresh [] validated_data
    = Ok (eio, Examples.fresh, []) /\
    getattr eio "integriteit" = VNone /\
    getattr eio "ondertekening" = VGroup [("soort", "digitaal"); ("datum", "2018-12-13")] /\
    gebruiksrechten_set eio = [].
Proof.
  intros validated_data.
  assert (exists eio, EIO.create Examples.request Examples.fresh [] validated_data
                      = Ok (eio, Examples.fresh, [])) as [eio Hcreate].
  { eexists. vm_compute. reflexivity. }
  exists eio. split; [exact Hcreate |].
  destruct (create_stores_validated_data _ _ _ _ _ _ _ Hcreate) as (Hi & Ho & _ & Hr).
  rewrite Hi, Ho. repeat split; try exact Hr; vm_compute; reflexivity.
Defined.

(** X12. How a create without a classification fails. Without an
    [informatieobjecttype] in the validated data it raises [KeyError] and
    requests nothing; an exception of the catalogue client is the exception
    of the create; an answer without [vertrouwelijkheidaanduiding] raises
    [KeyError]. In none of the cases an object is created. *)
Theorem create_without_classification_fails
    (request : value -> result (gmap string value))
    (self : EIO.Self) (requests : list value) (validated_data : gmap string value) :
  EIO.informatieobjecttype self = None ->
  validated_data !! "vertrouwelijkheidaanduiding" = None ->
  (validated_data !! "informatieobjecttype" = None ->
     EIO.create request self requests validated_data
     = Raise (KeyError "informatieobjecttype")) /\
  (forall url e,
     validated_data !! "informatieobjecttype" = Some url ->
     request url = Raise e ->
     EIO.create request self requests validated_data = Raise e) /\
  (forall url response,
     validated_data !! "informatieobjecttype" = Some url ->
     request url = Ok response ->
     response !! "vertrouwelijkheidaanduiding" = None ->
     EIO.create request self requests validated_data
     = Raise (KeyError "vertrouwelijkheidaanduiding")).
Proof.
  intros Hself Habsent.
  split; [| split].
  - intros Hkey. unfold EIO.create, pop.
    rewrite lookup_after_pops by done. rewrite Habsent.
    unfold getitem. rewrite lookup_after_pops by done. by rewrite Hkey.
  - intros url e Hkey Hreq. unfold EIO.create, pop.
    rewrite lookup_after_pops by done. rewrite Habsent.
    unfold getitem at 1. rewrite lookup_after_pops by done. rewrite Hkey. simpl.
    unfold EIO._get_informatieobjecttype. by rewrite Hself, Hreq.
  - intros url response Hkey Hreq Hanswer. unfold EIO.create, pop.
    rewrite lookup_after_pops by done. rewrite Habsent.
    unfold getitem at 1. rewrite lookup_after_pops by done. rewrite Hkey. simpl.
    unfold EIO._get_informatieobjecttype. rewrite Hself, Hreq. simpl.
    unfold getitem. by rewrite Hanswer.
Qed.

Lemma create_without_classification_fails_witness :
  EIO.create Examples.request Examples.fresh [] {[ "titel" := VStr "t" ]}
  = Raise (KeyError "informatieobjecttype") /\
  EIO.create Examples.request Examples.fresh []
    {[ "informatieobjecttype" := VStr "https://ztc.nl/api/v1/informatieobjecttypen/2" ]}
  = Raise (ClientError (VStr "https://ztc.nl/api/v1/informatieobjecttypen/2")).
Proof.
  split.
  - refine (proj1 (create_without_classification_fails Examples.request Examples.fresh []
                     {[ "titel" := VStr "t" ]} _ _) _).
    + reflexivity.
    + vm_compute. reflexivity.
    + vm_compute. reflexivity.
  - refine (proj1 (proj2 (create_without_classification_fails Examples.request
                            Examples.fresh [] _ _ _))
              (VStr "https://ztc.nl/api/v1/informatieobjecttypen/2") _ _ _).
    + reflexivity.
    + vm_compute. reflexivity.
    + vm_compute. reflexivity.
    + vm_compute. reflexivity.
Defined.

(** X13. [_get_informatieobjecttype] never answers from what it stored: it
    tests for the attribute [informatieobjecttype] and stores into
    [_informatieobjecttype], so on a serializer without the first attribute
    two calls in a row make two requests, and the second answer is the one of
    the second request. *)
Theorem get_informatieobjecttype_requests_every_time
    (request : value -> result (gmap string value))
    (self : EIO.Self) (requests : list value)
    (url1 url2 : value) (response1 response2 : gmap string value) :
  EIO.informatieobjecttype self = None ->
  request url1 = Ok response1 ->
  request url2 = Ok response2 ->
  exists self1 self2,
    EIO._get_informatieobjecttype request self requests url1
    = Ok (response1, self1, (requests ++ [url1])%list) /\
    EIO._get_informatieobjecttype request self1 (requests ++ [url1])%list url2
    = Ok (response2, self2, (requests ++ [url1; url2])%list).
Proof.
  intros Hself Hreq1 Hreq2.
  unfold EIO._get_informatieobjecttype. rewrite Hself, Hreq1. simpl.
  eexists _, _. split; [reflexivity |].
  simpl. rewrite Hreq2. simpl. by rewrite <- app_assoc.
Qed.

Lemma get_informatieobjecttype_requests_every_time_witness :
  exists self1 self2 response,
    EIO._get_informatieobjecttype Examples.request Examples.fresh []
      (VStr "https://ztc.nl/api/v1/informatieobjecttypen/1")
    = Ok (response, self1, [VStr "https://ztc.nl/api/v1/informatieobjecttypen/1"]) /\
    EIO._get_informatieobjecttype Examples.request self1
      [VStr "https://ztc.nl/api/v1/informatieobjecttypen/1"]
      (VStr "https://ztc.nl/api/v1/informatieobjecttypen/1")
    = Ok (response, self2, [VStr "https://ztc.nl/api/v1/informatieobjecttypen/1";
                            VStr "https://ztc.nl/api/v1/informatieobjecttypen/1"]).
Proof.
  destruct (get_informatieobjecttype_requests_every_time Examples.request Examples.fresh []
              (VStr "https://ztc.nl/api/v1/informatieobjecttypen/1")
              (VStr "https://ztc.nl/api/v1/informatieobjecttypen/1")
              {[ "omschrijving" := VStr "besluit";
                 "vertrouwelijkheidaanduiding" := VStr "openbaar" ]}
              {[ "omschrijving" := VStr "besluit";
                 "vertrouwelijkheidaanduiding" := VStr "openbaar" ]})
    as (self1 & self2 & H1 & H2).
  - reflexivity.
  - vm_compute. reflexivity.
  - vm_compute. reflexivity.
  - exists self1, self2. eexists. split; [exact H1 | exact H2].
Defined.

(** X14. A document created from attributes that passed [validate] is
    unlocked: every update of it fails with [Unlocked] until it has been
    locked, and the lock serializer accepts it. *)
Theorem created_document_is_unlocked
    (request : value -> result (gmap string value))
    (self self' : EIO.Self) (requests requests' : list value)
    (attrs validated_data : gmap string value) (eio : EnkelvoudigInformatieObject) :
  EIO.validate None attrs = Ok validated_data ->
  EIO.create request self requests validated_data = Ok (eio, self', requests') ->
  truthy (getattr eio "lock") = false /\
  (forall attrs', EIO.validate (Some eio) attrs' = Raise Unlocked) /\
  (forall attrs', LockEIO.validate eio attrs' = Ok attrs').
Proof.
  unfold EIO.validate at 1. unfold ModelSerializer.validate.
  destruct (truthy (get attrs "lock" (VStr ""))) eqn:Hlock; [discriminate |].
  intros [= <-] Hcreate.
  destruct (create_row _ _ _ _ _ _ _ Hcreate) as [_ Hflat].
  assert (truthy (getattr eio "lock") = false) as Hunlocked.
  { unfold getattr. rewrite Hflat by done.
    unfold get in Hlock. by destruct (attrs !! "lock"). }
  split; [exact Hunlocked |]. split; intros attrs'.
  - unfold EIO.validate. by rewrite Hunlocked.
  - unfold LockEIO.validate. by rewrite Hunlocked.
Qed.

Lemma created_document_is_unlocked_witness :
  let attrs : gmap string value :=
    {[ "vertrouwelijkheidaanduiding" := VStr "geheim"; "titel" := VStr "t" ]} in
  exists eio,
    EIO.create Examples.request Examples.fresh [] attrs = Ok (eio, Examples.fresh, []) /\
    truthy (getattr eio "lock") = false /\
    (forall attrs', EIO.validate (Some eio) attrs' = Raise Unlocked) /\
    (forall attrs', LockEIO.validate eio attrs' = Ok attrs').
Proof.
  intros attrs.
  assert (exists eio, EIO.create Examples.request Examples.fresh [] attrs
                      = Ok (eio, Examples.fresh, [])) as [eio Hcreate].
  { eexists. vm_compute. reflexivity. }
  exists eio. split; [exact Hcreate |].
  apply (created_document_is_unlocked Examples.request Examples.fresh Examples.fresh
           [] [] attrs attrs eio).
  - vm_compute. reflexivity.
  - exact Hcreate.
Defined.

(** ** The indicator, in general *)

(** X15. The field validator accepts exactly the values that agree with the
    usage rights: on an update a value passes if and only if it is true
    precisely when a usage-rights row points at the object, on a create if
    and only if it is not true; an accepted value is returned unchanged. *)
Theorem indicatie_accepted_iff_consistent
    (instance : option EnkelvoudigInformatieObject) (indicatie : value) :
  (EIO.validate_indicatie_gebruiksrecht instance indicatie = Ok indicatie <->
   truthy indicatie = exists_ (usage_rights instance)) /\
  (forall v, EIO.validate_indicatie_gebruiksrecht instance indicatie = Ok v ->
             v = indicatie).
Proof.
  split.
  - destruct (truthy indicatie) eqn:Ht.
    + rewrite validate_indicatie_true by done.
      destruct (exists_ (usage_rights instance)); split; done.
    + rewrite validate_indicatie_false by done.
      destruct (exists_ (usage_rights instance)); split; done.
  - intros v. destruct (truthy indicatie) eqn:Ht.
    + rewrite validate_indicatie_true by done.
      destruct (exists_ (usage_rights instance)); [| discriminate]. by intros [= <-].
    + rewrite validate_indicatie_false by done.
      destruct (exists_ (usage_rights instance)); [discriminate |]. by intros [= <-].
Qed.

Lemma indicatie_accepted_iff_consistent_witness :
  EIO.validate_indicatie_gebruiksrecht (Some Examples.locked_doc) (VBool true)
  = Ok (VBool true) /\
  EIO.validate_indicatie_gebruiksrecht (Some Examples.unlocked_doc) VNone = Ok VNone.
Proof.
  split.
  - apply (proj1 (indicatie_accepted_iff_consistent (Some Examples.locked_doc)
                    (VBool true))).
    reflexivity.
  - apply (proj1 (indicatie_accepted_iff_consistent (Some Examples.unlocked_doc) VNone)).
    reflexivity.
Defined.

(** ** Field validation, for any [Meta] *)

Section Fields.

Variable fields : list string.
Variable read_only : string -> bool.
Variable required : string -> bool.
Variable validators : string -> list OIO.validator.
Variable field_errors : string -> value -> list string.
Variable url_errors : value -> list string.
Variable class_errors : option (Model unit) -> gmap string value -> list string.

Let run_validators := Serializer.run_validators validators url_errors.
Let to_internal_value :=
  Serializer.to_internal_value read_only required validators field_errors url_errors.

(** What reaches the validated attributes is a writable field of the
    serializer, with the value of the data; the field took the value and its
    validators accepted it. *)
Lemma validated_attribute_sound instance partial names data name v :
  (to_internal_value instance partial names data).1 !! name = Some v ->
  name ∈ names /\ read_only name = false /\ data !! name = Some v /\
  field_errors name v = [] /\ run_validators instance name v = [].
Proof.
  subst to_internal_value run_validators.
  induction names as [| n names IH]; simpl.
  - by rewrite lookup_empty.
  - destruct (Serializer.to_internal_value _ _ _ _ _ instance partial names data)
      as [ret errors]. simpl in IH.
    assert (ret !! name = Some v ->
            name ∈ n :: names /\ read_only name = false /\ data !! name = Some v /\
            field_errors name v = [] /\
            Serializer.run_validators validators url_errors instance name v = [])
      as Htail.
    { intros Hret. destruct (IH Hret) as (Hin & Hrest).
      split; [| exact Hrest]. apply elem_of_cons. by right. }
    destruct (read_only n) eqn:Hro; [exact Htail |].
    destruct (data !! n) as [w |] eqn:Hdata.
    + destruct (field_errors n w) eqn:Hfield; [| exact Htail].
      destruct (Serializer.run_validators validators url_errors instance n w) eqn:Hrun;
        [| exact Htail].
      simpl. destruct (decide (n = name)) as [-> | Hne].
      * rewrite lookup_insert_eq. intros [= <-].
        split; [apply elem_of_cons; by left |]. by repeat split.
      * by rewrite lookup_insert_ne.
    + destruct partial; [exact Htail |]. by destruct (required n).
Qed.

(** A writable field that the data supplies, that takes the value and whose
    validators accept it reaches the validated attributes. *)
Lemma validated_attribute_complete instance partial names data name v :
  name ∈ names -> read_only name = false -> data !! name = Some v ->
  field_errors name v = [] ->
  run_validators instance name v = [] ->
  (to_internal_value instance partial names data).1 !! name = Some v.
Proof.
  subst to_internal_value run_validators.
  intros Hin Hro Hdata Hfield Hrun.
  induction names as [| n names IH]; [by apply elem_of_nil in Hin |].
  simpl.
  destruct (Serializer.to_internal_value _ _ _ _ _ instance partial names data)
    as [ret errors]. simpl in IH.
  destruct (decide (n = name)) as [-> | Hne].
  - rewrite Hro, Hdata, Hfield, Hrun. simpl. by rewrite lookup_insert_eq.
  - apply elem_of_cons in Hin as [-> | Hin]; [done |]. specialize (IH Hin).
    destruct (read_only n); [exact IH |].
    destruct (data !! n) as [w |].
    + destruct (field_errors n w); [| exact IH].
      destruct (Serializer.run_validators validators url_errors instance n w);
        simpl; [| exact IH].
      by rewrite lookup_insert_ne.
    + destruct partial; [exact IH |]. by destruct (required n).
Qed.

(** Every error is that of a writable field: it is absent from a full update
    that requires it, or the field refused the value, or its validators
    raised. *)
Lemma field_error_origin instance partial names data name codes :
  (name, codes) ∈ (to_internal_value instance partial names data).2 ->
  name ∈ names /\ read_only name = false /\
  ((data !! name = None /\ partial = false /\ required name = true /\
    codes = ["required"]) \/
   (exists v, data !! name = Some v /\ codes = field_errors name v /\ codes <> []) \/
   (exists v, data !! name = Some v /\ field_errors name v = [] /\
              codes = run_validators instance name v /\ codes <> [])).
Proof.
  subst to_internal_value run_validators.
  induction names as [| n names IH]; simpl.
  - intros Hin. by apply elem_of_nil in Hin.
  - destruct (Serializer.to_internal_value _ _ _ _ _ instance partial names data)
      as [ret errors]. simpl in IH.
    assert ((name, codes) ∈ errors ->
            name ∈ n :: names /\ read_only name = false /\
            ((data !! name = None /\ partial = false /\ required name = true /\
              codes = ["required"]) \/
             (exists v, data !! name = Some v /\ codes = field_errors name v /\
                        codes <> []) \/
             (exists v, data !! name = Some v /\ field_errors name v = [] /\
                codes = Serializer.run_validators validators url_errors instance name v /\
                codes <> []))) as Htail.
    { intros Herr. destruct (IH Herr) as (Hin & Hrest).
      split; [| exact Hrest]. apply elem_of_cons. by right. }
    destruct (read_only n) eqn:Hro; [exact Htail |].
    destruct (data !! n) as [w |] eqn:Hdata.
    + destruct (field_errors n w) as [| f fs] eqn:Hfield.
      * destruct (Serializer.run_validators validators url_errors instance n w)
          as [| c cs] eqn:Hrun; [exact Htail |].
        simpl. intros Herr. apply elem_of_cons in Herr as [[= -> ->] | Herr];
          [| by apply Htail].
        split; [apply elem_of_cons; by left |]. split; [done |].
        right. right. exists w. by rewrite Hrun.
      * simpl. intros Herr. apply elem_of_cons in Herr as [[= -> ->] | Herr];
          [| by apply Htail].
        split; [apply elem_of_cons; by left |]. split; [done |].
        right. left. exists w. by rewrite Hfield.
    + destruct partial eqn:Hp; [exact Htail |].
      destruct (required n) eqn:Hreq; [| exact Htail].
      simpl. intros Herr. apply elem_of_cons in Herr as [[= -> ->] | Herr];
        [| by apply Htail].
      split; [apply elem_of_cons; by left |]. split; [done |]. by left.
Qed.

(** A writable field that the data supplies, that takes the value and whose
    validators raise is among the errors. *)
Lemma field_error_reported instance partial names data name v :
  name ∈ names -> read_only name = false -> data !! name = Some v ->
  field_errors name v = [] ->
  run_validators instance name v <> [] ->
  (name, run_validators instance name v)
    ∈ (to_internal_value instance partial names data).2.
Proof.
  subst to_internal_value run_validators.
  intros Hin Hro Hdata Hfield Hrun.
  induction names as [| n names IH]; [by apply elem_of_nil in Hin |].
  simpl.
  destruct (Serializer.to_internal_value _ _ _ _ _ instance partial names data)
    as [ret errors]. simpl in IH.
  apply elem_of_cons in Hin as [<- | Hin].
  - rewrite Hro, Hdata, Hfield.
    destruct (Serializer.run_validators validators url_errors instance name v); [done |].
    simpl. apply elem_of_cons. by left.
  - specialize (IH Hin).
    destruct (read_only n); [exact IH |].
    destruct (data !! n) as [w |].
    + destruct (field_errors n w);
        [destruct (Serializer.run_validators validators url_errors instance n w);
           [exact IH |] |];
        simpl; apply elem_of_cons; by right.
    + destruct partial; [exact IH |].
      destruct (required n); [| exact IH]. simpl. apply elem_of_cons. by right.
Qed.

(** A value that the field refuses is an error of the field. *)
Lemma field_refusal_reported instance partial names data name v :
  name ∈ names -> read_only name = false -> data !! name = Some v ->
  field_errors name v <> [] ->
  (name, field_errors name v) ∈ (to_internal_value instance partial names data).2.
Proof.
  subst to_internal_value run_validators.
  intros Hin Hro Hdata Hfield.
  induction names as [| n names IH]; [by apply elem_of_nil in Hin |].
  simpl.
  destruct (Serializer.to_internal_value _ _ _ _ _ instance partial names data)
    as [ret errors]. simpl in IH.
  apply elem_of_cons in Hin as [<- | Hin].
  - rewrite Hro, Hdata.
    destruct (field_errors name v); [done |].
    simpl. apply elem_of_cons. by left.
  - specialize (IH Hin).
    destruct (read_only n); [exact IH |].
    destruct (data !! n) as [w |].
    + destruct (field_errors n w);
        [destruct (Serializer.run_validators validators url_errors instance n w);
           [exact IH |] |];
        simpl; apply elem_of_cons; by right.
    + destruct partial; [exact IH |].
      destruct (required n); [| exact IH]. simpl. apply elem_of_cons. by right.
Qed.


(** When an update is accepted, each attribute of the row is the supplied
    value if it is a writable field that the data names, and the stored value
    otherwise. *)
Lemma accepted_update_attribute instance partial data instance' name :
  Serializer.update fields read_only required validators field_errors url_errors
    class_errors instance partial data = Ok instance' ->
  getattr instance' name =
  if bool_decide (name ∈ fields) && negb (read_only name)
  then default (getattr instance name) (data !! name)
  else getattr instance name.
Proof.
  unfold Serializer.update, Serializer.run_validation.
  pose proof (validated_attribute_sound (Some instance) partial fields data name) as Hsound.
  pose proof (validated_attribute_complete (Some instance) partial fields data name)
    as Hcomplete.
  pose proof (field_error_reported (Some instance) partial fields data name) as Hreported.
  pose proof (field_refusal_reported (Some instance) partial fields data name) as Hrefused.
  subst to_internal_value run_validators.
  destruct (Serializer.to_internal_value _ _ _ _ _ (Some instance) partial fields data)
    as [ret errors]. simpl in *.
  destruct errors; [| discriminate].
  destruct (class_errors (Some instance) ret); [| discriminate].
  simpl. intros [= <-]. rewrite model_update_spec. unfold getattr at 1. simpl.
  rewrite lookup_union.
  destruct (ret !! name) as [v |] eqn:Hret.
  - destruct (Hsound v eq_refl) as (Hin & Hro & Hdata & _).
    rewrite bool_decide_eq_true_2, Hro, Hdata by done. simpl.
    by destruct (attributes instance !! name).
  - rewrite (left_id_L None (∪)). fold (getattr instance name).
    case_bool_decide as Hin; simpl; [| reflexivity].
    destruct (read_only name) eqn:Hro; simpl; [reflexivity |].
    destruct (data !! name) as [v |] eqn:Hdata; simpl; [| reflexivity].
    exfalso.
    destruct (field_errors name v) as [| f fs] eqn:Hfield.
    + destruct (Serializer.run_validators validators url_errors (Some instance) name v)
        as [| c cs] eqn:Hrun.
      * specialize (Hcomplete v Hin eq_refl eq_refl Hfield Hrun). congruence.
      * specialize (Hreported v Hin eq_refl eq_refl Hfield). rewrite Hrun in Hreported.
        specialize (Hreported ltac:(discriminate)). by apply elem_of_nil in Hreported.
    + specialize (Hrefused v Hin eq_refl eq_refl). rewrite Hfield in Hrefused.
      specialize (Hrefused ltac:(discriminate)). by apply elem_of_nil in Hrefused.
Qed.

(** When an update is accepted, every writable field that the data supplies
    took its value and its validators accepted it. *)
Lemma accepted_update_validators instance partial data instance' name v :
  Serializer.update fields read_only required validators field_errors url_errors
    class_errors instance partial data = Ok instance' ->
  name ∈ fields -> read_only name = false -> data !! name = Some v ->
  field_errors name v = [] /\ run_validators (Some instance) name v = [].
Proof.
  unfold Serializer.update, Serializer.run_validation.
  intros Hok Hin Hro Hdata.
  pose proof (field_error_reported (Some instance) partial fields data name v
                Hin Hro Hdata) as Hreported.
  pose proof (field_refusal_reported (Some instance) partial fields data name v
                Hin Hro Hdata) as Hrefused.
  subst to_internal_value run_validators.
  destruct (Serializer.to_internal_value _ _ _ _ _ (Some instance) partial fields data)
    as [ret errors]. simpl in *.
  destruct errors; [| discriminate].
  destruct (field_errors name v) as [| f fs] eqn:Hfield.
  - split; [reflexivity |].
    destruct (Serializer.run_validators validators url_errors (Some instance) name v);
      [reflexivity |].
    specialize (Hreported eq_refl ltac:(discriminate)).
    by apply elem_of_nil in Hreported.
  - specialize (Hrefused ltac:(discriminate)). by apply elem_of_nil in Hrefused.
Qed.

End Fields.

(** [ObjectInformatieObjectSerializer] is the serializer whose [Meta] has its
    fields and validators, with every writable field required. *)
Lemma relation_to_internal_value field_errors url_errors instance partial names data :
  OIO.to_internal_value field_errors url_errors instance partial names data =
  Serializer.to_internal_value OIO.read_only (fun _ => true) OIO.validators
    field_errors url_errors instance partial names data.
Proof.
  induction names as [| n names IH]; [reflexivity |].
  simpl. rewrite IH. reflexivity.
Qed.

Lemma relation_update_generic field_errors url_errors class_errors
    instance partial data :
  OIO.update field_errors url_errors class_errors instance partial data =
  Serializer.update OIO.fields OIO.read_only (fun _ => true) OIO.validators
    field_errors url_errors class_errors instance partial data.
Proof.
  unfold OIO.update, Serializer.update, OIO.run_validation, Serializer.run_validation.
  by rewrite relation_to_internal_value.
Qed.

(** [IsImmutableValidator] accepts a value on an update only when it is the
    stored one. *)
Lemma immutable_accepts_stored validators url_errors
    (inst : Model unit) name v :
  In OIO.IsImmutableValidator (validators name) ->
  Serializer.run_validators validators url_errors (Some inst) name v = [] ->
  v = getattr inst name.
Proof.
  unfold Serializer.run_validators. intros Hin Hrun.
  destruct (decide (v = getattr inst name)) as [| Hne]; [done |].
  exfalso. apply ne_true_iff in Hne.
  assert (In ImmutableFieldModified
            (flat_map (fun vd => OIO.call url_errors vd (Some inst) name v)
               (validators name))) as Hcode.
  { apply in_flat_map. exists OIO.IsImmutableValidator. split; [done |].
    simpl. rewrite Hne. by left. }
  by rewrite Hrun in Hcode.
Qed.

Lemma relation_writable name :
  name ∈ OIO.fields -> OIO.read_only name = false ->
  name = "informatieobject" \/ name = "object" \/ name = "object_type".
Proof.
  unfold OIO.fields. intros Hin Hro.
  repeat (apply elem_of_cons in Hin as [-> | Hin]); auto.
  - discriminate.
  - by apply elem_of_nil in Hin.
Qed.

(** ** Relations, in general *)

Lemma relation_update_frame field_errors url_errors class_errors
    (inst inst' : ObjectInformatieObject) partial data name :
  OIO.update field_errors url_errors class_errors inst partial data = Ok inst' ->
  name <> "informatieobject" ->
  getattr inst' name = getattr inst name.
Proof.
  rewrite relation_update_generic. intros Hok Hname.
  rewrite (accepted_update_attribute _ _ _ _ _ _ _ _ _ _ _ name Hok).
  case_bool_decide as Hin; simpl; [| reflexivity].
  destruct (OIO.read_only name) eqn:Hro; simpl; [reflexivity |].
  destruct (data !! name) as [v |] eqn:Hdata; simpl; [| reflexivity].
  destruct (accepted_update_validators _ _ _ _ _ _ _ _ _ _ _ name v Hok Hin Hro Hdata)
    as [_ Hrun].
  apply (immutable_accepts_stored OIO.validators url_errors inst name v); [| exact Hrun].
  destruct (relation_writable name Hin Hro) as [-> | [-> | ->]]; [done | |].
  - simpl. right. by left.
  - simpl. by left.
Qed.

Lemma relation_after_frame field_errors url_errors class_errors
    (inst : ObjectInformatieObject) requests name :
  name <> "informatieobject" ->
  getattr (relation_after field_errors url_errors class_errors inst requests) name
  = getattr inst name.
Proof.
  intros Hname. unfold relation_after.
  revert inst. induction requests as [| [partial data] requests IH]; intros inst;
    [reflexivity |].
  simpl. rewrite IH.
  destruct (OIO.update field_errors url_errors class_errors inst partial data)
    as [inst' |] eqn:Hup; [| reflexivity].
  by apply (relation_update_frame _ _ _ _ _ _ _ _ Hup).
Qed.

(** X16. An accepted update of a relation changes at most its
    [informatieobject]: every other attribute, [object], [object_type] and
    [aard_relatie] among them, reads as before. *)
Theorem relation_update_changes_informatieobject_only
    (field_errors : string -> value -> list string)
    (url_errors : value -> list string)
    (class_errors : option ObjectInformatieObject -> gmap string value -> list string)
    (inst inst' : ObjectInformatieObject) (partial : bool)
    (data : gmap string value) (name : string) :
  OIO.update field_errors url_errors class_errors inst partial data = Ok inst' ->
  name <> "informatieobject" ->
  getattr inst' name = getattr inst name.
Proof. apply relation_update_frame. Qed.

Lemma relation_update_changes_informatieobject_only_witness :
  getattr (setattr Examples.relation "informatieobject" (VStr "c3b6f1ba")) "object"
  = getattr Examples.relation "object".
Proof.
  apply (relation_update_changes_informatieobject_only (fun _ _ => []) (fun _ => [])
           (fun _ _ => []) Examples.relation _ true
           {[ "informatieobject" := VStr "c3b6f1ba" ]} "object").
  - vm_compute. reflexivity.
  - discriminate.
Defined.

(** X17. No sequence of update requests, accepted or rejected, partial or
    full, changes the [object], the [object_type] or the [aard_relatie] of a
    relation. *)
Theorem relation_immutable_under_requests
    (field_errors : string -> value -> list string)
    (url_errors : value -> list string)
    (class_errors : option ObjectInformatieObject -> gmap string value -> list string)
    (inst : ObjectInformatieObject) (requests : list (bool * gmap string value))
    (name : string) :
  name <> "informatieobject" ->
  getattr (relation_after field_errors url_errors class_errors inst requests) name
  = getattr inst name.
Proof. apply relation_after_frame. Qed.

Lemma relation_immutable_under_requests_witness :
  getattr (relation_after (fun _ _ => []) (fun _ => []) (fun _ _ => []) Examples.relation
             [(true, {[ "object_type" := VStr "besluit" ]});
              (true, {[ "informatieobject" := VStr "c3b6f1ba";
                        "aard_relatie" := VStr "legt_vast" ]})])
    "aard_relatie"
  = getattr Examples.relation "aard_relatie".
Proof.
  apply (relation_immutable_under_requests (fun _ _ => []) (fun _ => []) (fun _ _ => [])
           Examples.relation _ "aard_relatie").
  discriminate.
Defined.

(** X19. The [informatieobject] of a relation is not protected: a partial
    update that supplies another one is accepted whenever the field itself
    takes the value (it resolves to an information object) and the
    validators of the class accept it, and writes it. *)
Theorem relation_informatieobject_can_change
    (field_errors : string -> value -> list string)
    (url_errors : value -> list string)
    (class_errors : option ObjectInformatieObject -> gmap string value -> list string)
    (inst : ObjectInformatieObject) (v : value) :
  field_errors "informatieobject" v = [] ->
  class_errors (Some inst) {[ "informatieobject" := v ]} = [] ->
  OIO.update field_errors url_errors class_errors inst true
    {[ "informatieobject" := v ]}
  = Ok (setattr inst "informatieobject" v).
Proof.
  intros Hfield Hclass.
  unfold OIO.update, OIO.run_validation, OIO.fields. simpl.
  rewrite !lookup_singleton_ne by done. rewrite lookup_singleton_eq, Hfield. simpl.
  rewrite insert_empty, Hclass. reflexivity.
Qed.

Lemma relation_informatieobject_can_change_witness :
  let field_errors := fun (_ : string) (v : value) =>
    match v with VStr _ => [] | _ => ["invalid"] end in
  OIO.update field_errors (fun _ => []) (fun _ _ => []) Examples.relation true
    {[ "informatieobject" := VStr "c3b6f1ba" ]}
  = Ok (setattr Examples.relation "informatieobject" (VStr "c3b6f1ba")).
Proof.
  intros field_errors.
  apply (relation_informatieobject_can_change field_errors (fun _ => []) (fun _ _ => [])
           Examples.relation (VStr "c3b6f1ba")); reflexivity.
Defined.



(** X21. On a create (the serializer has no instance) [IsImmutableValidator]
    does nothing: when neither the fields themselves, nor the URL validator,
    nor the validators of the class raise its code, no field of a create
    fails with [ImmutableFieldModified]. *)
Theorem relation_create_never_immutable
    (field_errors : string -> value -> list string)
    (url_errors : value -> list string)
    (class_errors : option ObjectInformatieObject -> gmap string value -> list string)
    (partial : bool) (data : gmap string value) (name : string) :
  (forall field v, ~ In ImmutableFieldModified (field_errors field v)) ->
  (forall v, ~ In ImmutableFieldModified (url_errors v)) ->
  (forall attrs, ~ In ImmutableFieldModified (class_errors None attrs)) ->
  ~ fails_immutable
      (OIO.run_validation field_errors url_errors class_errors None partial data) name.
Proof.
  intros Hfield Hurl Hclass (errors & codes & Hraise & Hin & Hcode).
  apply list_elem_of_In in Hcode.
  revert Hraise. unfold OIO.run_validation. rewrite relation_to_internal_value.
  pose proof (field_error_origin OIO.read_only (fun _ => true) OIO.validators
                field_errors url_errors None partial OIO.fields data name codes)
    as Horigin.
  destruct (Serializer.to_internal_value _ _ _ _ _ None partial OIO.fields data)
    as [ret errs]. simpl in Horigin.
  destruct errs as [| e errs].
  - destruct (class_errors None ret) as [| c cs] eqn:Herrs; [discriminate |].
    intros [= <-]. apply elem_of_cons in Hin as [[= _ ->] | Hin];
      [| by apply elem_of_nil in Hin].
    apply (Hclass ret). by rewrite Herrs.
  - intros [= <-].
    destruct (Horigin Hin)
      as (_ & _ & [(_ & _ & _ & ->) | [(v & _ & -> & _) | (v & _ & _ & -> & _)]]).
    + destruct Hcode as [Hcode | []]. discriminate.
    + by apply (Hfield name v).
    + unfold Serializer.run_validators, OIO.validators in Hcode.
      repeat case_bool_decide; simpl in Hcode.
      * rewrite !app_nil_r in Hcode. by apply (Hurl v).
      * done.
      * done.
Qed.

Lemma relation_create_never_immutable_witness :
  ~ fails_immutable
      (OIO.run_validation (fun _ _ => []) (fun _ => []) (fun _ _ => []) None false
         {[ "object" := VStr "https://zrc.nl/api/v1/zaken/1234" ]}) "object".
Proof.
  apply (relation_create_never_immutable (fun _ _ => []) (fun _ => []) (fun _ _ => [])
           false _ "object").
  - intros field v H. exact H.
  - intros v H. exact H.
  - intros attrs H. exact H.
Defined.

(** ** Usage rights *)







(** ** The shape of a token *)

Section Shape.

Local Open Scope Z_scope.

(** The six fixed bits of a version-4 UUID are the variant [10] and the
    version [0100], whatever bytes were drawn. *)
Lemma uuid4_fixed_bits (urandom : list Byte.byte) :
  Z.land (uuid.uuid4 urandom) fixed_bits
  = Z.lor (Z.shiftl 0x8000 48) (Z.shiftl 4 76).
Proof.
  unfold uuid.uuid4, uuid.UUID.
  generalize (uuid.int_from_bytes urandom). intros x.
  rewrite Z.land_lor_distr_l.
  replace (Z.land (Z.shiftl 4 76) fixed_bits) with (Z.shiftl 4 76)
    by (vm_compute; reflexivity).
  rewrite <- Z.land_assoc.
  replace (Z.land (Z.lnot (Z.shiftl 0xf000 64)) fixed_bits) with (Z.shiftl 0xc000 48)
    by (vm_compute; reflexivity).
  rewrite Z.land_lor_distr_l.
  replace (Z.land (Z.shiftl 0x8000 48) (Z.shiftl 0xc000 48)) with (Z.shiftl 0x8000 48)
    by (vm_compute; reflexivity).
  rewrite <- Z.land_assoc.
  replace (Z.land (Z.lnot (Z.shiftl 0xc000 48)) (Z.shiftl 0xc000 48)) with 0
    by (vm_compute; reflexivity).
  by rewrite Z.land_0_r, Z.lor_0_l.
Qed.

(** A hexadecimal digit of an integer is four of its bits. *)
Lemma nibble_land (x : Z) (k : nat) :
  (x / 16 ^ Z.of_nat k) mod 16 = Z.land (Z.shiftr x (4 * Z.of_nat k)) 15.
Proof.
  change 15 with (Z.ones 4). rewrite Z.land_ones by lia.
  rewrite Z.shiftr_div_pow2 by lia.
  change 16 with (2 ^ 4) at 1. rewrite <- Z.pow_mul_r by lia.
  reflexivity.
Qed.

Lemma version_nibble (urandom : list Byte.byte) :
  (uuid.uuid4 urandom / 16 ^ Z.of_nat 19) mod 16 = 4.
Proof.
  rewrite nibble_land.
  pose proof (f_equal (fun z => Z.land (Z.shiftr z 76) 15) (uuid4_fixed_bits urandom))
    as Hbits. cbv beta in Hbits.
  rewrite Z.shiftr_land, <- Z.land_assoc in Hbits.
  replace (Z.land (Z.shiftr fixed_bits 76) 15) with 15 in Hbits
    by (vm_compute; reflexivity).
  exact Hbits.
Qed.

Lemma variant_nibble (urandom : list Byte.byte) :
  8 <= (uuid.uuid4 urandom / 16 ^ Z.of_nat 15) mod 16 <= 11.
Proof.
  rewrite nibble_land.
  pose proof (f_equal (fun z => Z.land (Z.shiftr z 60) 12) (uuid4_fixed_bits urandom))
    as Hbits. cbv beta in Hbits.
  rewrite Z.shiftr_land, <- Z.land_assoc in Hbits.
  replace (Z.land (Z.shiftr fixed_bits 60) 12) with 12 in Hbits
    by (vm_compute; reflexivity).
  replace (Z.land (Z.shiftr (Z.lor (Z.shiftl 32768 48) (Z.shiftl 4 76)) 60) 12)
    with 8 in Hbits by (vm_compute; reflexivity).
  set (n := Z.land (Z.shiftr (uuid.uuid4 urandom) (4 * Z.of_nat 15)) 15).
  change (4 * Z.of_nat 15) with 60 in n.
  assert (Z.land n 12 = 8) as Hn.
  { subst n. rewrite <- Z.land_assoc. exact Hbits. }
  assert (0 <= n < 16) as Hrange.
  { subst n. change 15 with (Z.ones 4). rewrite Z.land_ones by lia.
    apply Z.mod_pos_bound. lia. }
  clearbody n. revert Hn.
  rewrite <- (Z2Nat.id n) by lia.
  assert (Z.to_nat n < 16)%nat as Hk by lia.
  revert Hk. generalize (Z.to_nat n). clear. intros k Hk Hn.
  do 16 (destruct k as [| k];
         [ vm_compute in Hn; first [discriminate Hn | lia] |]).
  lia.
Qed.

End Shape.

(** X24. Every token that the lock serializer stores is the hexadecimal form
    of a version-4 UUID: whatever bytes were drawn, its thirteenth character
    is [4] and its seventeenth is one of [8], [9], [a] and [b]. *)
Theorem token_is_version_4 (inst : EnkelvoudigInformatieObject)
    (urandom : list Byte.byte) :
  exists token,
    getattr (LockEIO.save inst urandom) "lock" = VStr token /\
    String.get 12 token = Some "4"%char /\
    (String.get 16 token = Some "8"%char \/ String.get 16 token = Some "9"%char \/
     String.get 16 token = Some "a"%char \/ String.get 16 token = Some "b"%char).
Proof.
  exists (uuid.hex (uuid.uuid4 urandom)). split; [apply lock_save_lock |].
  pose proof (version_nibble urandom) as Hversion.
  pose proof (variant_nibble urandom) as Hvariant.
  unfold uuid.hex. cbn [seq map string_of_list_ascii String.get Nat.sub].
  cbn [seq map string_of_list_ascii String.get Nat.sub] in *.
  split.
  - rewrite Hversion. reflexivity.
  - set (n := ((uuid.uuid4 urandom / 16 ^ Z.of_nat 15) mod 16)%Z) in *.
    assert (n = 8 \/ n = 9 \/ n = 10 \/ n = 11)%Z as [-> | [-> | [-> | ->]]] by lia;
      auto.
Qed.

(** ** The content field *)

(** X25. The [inhoud] field of the information-object serializer never trips
    the assertion on [view_name]. For a file in private storage its
    representation is the URL of the download view for the [uuid] of the row,
    so it is the same for every file of that row, whatever its path; only for
    other storage does it fall back on the representation of the parent
    field. A field without [view_name] raises the assertion exactly on
    private storage when base64 is not asked for. *)
Theorem inhoud_representation
    (super_to_representation : FieldFile -> value)
    (reverse : string -> string * value -> value) (file : FieldFile) :
  (forall message,
     AnyBase64File.inhoud super_to_representation reverse file
     <> AssertionError message) /\
  (storage_is_private file = true ->
     forall file',
       storage_is_private file' = true ->
       getattr (file_instance file') "uuid" = getattr (file_instance file) "uuid" ->
       AnyBase64File.inhoud super_to_representation reverse file'
       = Represented (reverse "enkelvoudiginformatieobject-download"
                        ("uuid", getattr (file_instance file) "uuid"))) /\
  (storage_is_private file = false ->
     AnyBase64File.inhoud super_to_representation reverse file
     = Represented (super_to_representation file)) /\
  (forall represent_in_base64 lookup_field,
     (exists message,
        AnyBase64File.to_representation super_to_representation reverse None
          represent_in_base64 lookup_field file = AssertionError message) <->
     storage_is_private file = true /\ represent_in_base64 = false).
Proof.
  unfold AnyBase64File.inhoud, AnyBase64File.to_representation.
  split; [| split; [| split]].
  - intros message. by destruct (storage_is_private file).
  - intros _ file' -> ->. reflexivity.
  - intros ->. reflexivity.
  - intros represent_in_base64 lookup_field.
    destruct (storage_is_private file), represent_in_base64; simpl; split;
      try (intros [message Hm]; discriminate Hm);
      try (intros [? ?]; discriminate);
      try (intros _; by eexists); by split.
Qed.

Lemma inhoud_representation_witness :
  let file := {| storage_is_private := true; file_instance := Examples.locked_doc;
                 file_name := "uploads/2019/07/some.bin" |} in
  let file' := {| storage_is_private := true; file_instance := Examples.locked_doc;
                  file_name := "uploads/2019/08/other.bin" |} in
  AnyBase64File.inhoud (fun f => VStr (file_name f)) (fun _ kw => kw.2) file'
  = Represented (getattr Examples.locked_doc "uuid").
Proof.
  intros file file'.
  apply (proj1 (proj2 (inhoud_representation (fun f => VStr (file_name f))
                         (fun _ kw => kw.2) file)) eq_refl file'); reflexivity.
Defined.
